(** * The streaming response transcoder of the OpenAI-to-NIM proxy worker

    A shallow embedding of [src/worker.js]: the per-request stream pump
    (lines 137-249), the delta merger it applies to each data line
    (lines 187-221), the one-shot reshaper of non-streamed choices
    (lines 269-284), the upstream request builder (lines 99-109) and the
    upstream failure response (lines 121-133).

    JavaScript values are modelled as the program meets them:
    - a string is its sequence of UTF-16 code units ([jsstring]);
    - a value produced by [JSON.parse] is a [json] tree, [undefined] is
      [None] of [option json];
    - an exception is an explicit result ([None] where the handler ignores
      the error, [Throw e] where the handler reads its message);
    - the writer of the [TransformStream] is a trace of write and close
      attempts, each accepted or rejected by the downstream side.

    The worker is an ES module, hence strict code: assigning a property to
    a primitive throws.  What a rejected read or write throws is taken to
    carry a [message]; [console.error] is not modelled.  The two
    configuration constants of the source, [SHOW_REASONING] and
    [ENABLE_THINKING_MODE] (both [true] there), are arguments of the
    functions that read them. *)

From Stdlib Require Import List PeanoNat NArith String Ascii Bool Lia PrimFloat.
From Stdlib.Strings Require Import Byte.
Import ListNotations.

Set Warnings "-inexact-float,-register-all".
Set Implicit Arguments.
Open Scope N_scope.
Open Scope list_scope.

(** ** Strings *)

Definition code_unit := N.
Definition jsstring := list code_unit.

(** A source literal without control characters or quotes. *)
Definition lit (s : string) : jsstring :=
  map N_of_ascii (list_ascii_of_string s).

Definition LF : code_unit := 10.
Definition DQUOTE : code_unit := 34.

Fixpoint str_eqb (a b : jsstring) : bool :=
  match a, b with
  | [], [] => true
  | x :: a', y :: b' => (x =? y) && str_eqb a' b'
  | _, _ => false
  end.

(** [s.startsWith(p)] *)
Fixpoint startsWith (p s : jsstring) : bool :=
  match p, s with
  | [], _ => true
  | _ :: _, [] => false
  | x :: p', y :: s' => (x =? y) && startsWith p' s'
  end.

(** [s.includes(p)] *)
Fixpoint includes (p s : jsstring) : bool :=
  match s with
  | [] => startsWith p []
  | _ :: s' => startsWith p s || includes p s'
  end.

(** [s.slice(n)] for [0 <= n] *)
Definition slice (n : nat) (s : jsstring) : jsstring := skipn n s.

(** White space and line terminators, as [String.prototype.trim] strips them. *)
Definition is_white_space (c : code_unit) : bool :=
  ((9 <=? c) && (c <=? 13)) || (c =? 32) || (c =? 160) || (c =? 5760)
  || ((8192 <=? c) && (c <=? 8202)) || (c =? 8232) || (c =? 8233)
  || (c =? 8239) || (c =? 8287) || (c =? 12288) || (c =? 65279).

Fixpoint trim_start (s : jsstring) : jsstring :=
  match s with
  | c :: s' => if is_white_space c then trim_start s' else s
  | [] => []
  end.

(** [s.trim()] *)
Definition trim (s : jsstring) : jsstring :=
  rev (trim_start (rev (trim_start s))).

(** [s.split('\n')]: never empty, the last element is what follows the last
    newline. *)
Fixpoint split_nl (s : jsstring) : list jsstring :=
  match s with
  | [] => [[]]
  | c :: s' =>
      if c =? LF then [] :: split_nl s'
      else match split_nl s' with
           | l :: ls => (c :: l) :: ls
           | [] => [[c]]
           end
  end.

(** A string is truthy when it is not empty. *)
Definition str_truthy (s : jsstring) : bool :=
  match s with [] => false | _ :: _ => true end.

(** ** JSON values, as [JSON.parse] builds them *)

Inductive json : Type :=
| JNull
| JBool (b : bool)
| JNum (x : float)
| JStr (s : jsstring)
| JArr (items : list json)
| JObj (fields : list (jsstring * json)).

(** A JavaScript value that came out of a parsed payload: [None] is
    [undefined]. *)
Definition jsval := option json.

(** An expression that may throw a [TypeError]: [None] is the throw.  Used
    where the handler does not look at the error. *)
Definition throws (A : Type) := option A.

Definition bind {A B : Type} (m : throws A) (k : A -> throws B) : throws B :=
  match m with Some a => k a | None => None end.

Notation "x <- m ;; k" := (bind m (fun x => k))
  (at level 61, m at next level, right associativity).

(** [ToBoolean] *)
Definition num_truthy (x : float) : bool :=
  negb (PrimFloat.eqb x 0%float) && PrimFloat.eqb x x.

Definition json_truthy (v : json) : bool :=
  match v with
  | JNull => false
  | JBool b => b
  | JNum x => num_truthy x
  | JStr s => str_truthy s
  | JArr _ | JObj _ => true
  end.

Definition truthy (v : jsval) : bool :=
  match v with Some j => json_truthy j | None => false end.

(** The value itself when it is truthy: the shape of [if (v) ... v ...]. *)
Definition as_truthy (v : jsval) : option json :=
  match v with
  | Some j => if json_truthy j then Some j else None
  | None => None
  end.

(** Own properties of an object, in insertion order. *)
Fixpoint lookup (k : jsstring) (fs : list (jsstring * json)) : jsval :=
  match fs with
  | [] => None
  | (k', v) :: fs' => if str_eqb k k' then Some v else lookup k fs'
  end.

(** [o.k = v]: an existing property keeps its place, a new one goes last. *)
Fixpoint set_field (k : jsstring) (v : json) (fs : list (jsstring * json))
  : list (jsstring * json) :=
  match fs with
  | [] => [(k, v)]
  | (k', v') :: fs' =>
      if str_eqb k k' then (k, v) :: fs' else (k', v') :: set_field k v fs'
  end.

(** [delete o.k] *)
Fixpoint remove_field (k : jsstring) (fs : list (jsstring * json))
  : list (jsstring * json) :=
  match fs with
  | [] => []
  | (k', v') :: fs' =>
      if str_eqb k k' then remove_field k fs'
      else (k', v') :: remove_field k fs'
  end.

(** [v.k] for one of the names the program reads ([choices], [delta],
    [content], [reasoning_content], [message], [role], ...), none of which
    is an inherited property of arrays, strings, numbers or booleans.
    Reading a property of [null] or [undefined] throws. *)
Definition member (k : jsstring) (v : jsval) : throws jsval :=
  match v with
  | None | Some JNull => None
  | Some (JObj fs) => Some (lookup k fs)
  | Some _ => Some None
  end.

(** [v?.k] *)
Definition opt_member (k : jsstring) (v : jsval) : jsval :=
  match v with
  | Some (JObj fs) => lookup k fs
  | _ => None
  end.

(** [v?.[0]]: the first element of an array, the first code unit of a
    string, the property ["0"] of an object. *)
Definition opt_index0 (v : jsval) : jsval :=
  match v with
  | Some (JArr (x :: _)) => Some x
  | Some (JStr (c :: _)) => Some (JStr [c])
  | Some (JObj fs) => lookup (lit "0") fs
  | _ => None
  end.

(** ** The writer and the reader

    The downstream side decides, for each operation on the writer in turn,
    whether it is accepted or rejected and with which error message.  The
    trace records every attempt; a write carries the string handed to the
    encoder. *)

Inductive event : Type :=
| Written (s : jsstring)
| WriteRejected (s : jsstring)
| Closed
| CloseRejected.

Definition downstream := nat -> option jsstring.

Inductive result (A : Type) : Type :=
| Ok (a : A)
| Throw (message : jsstring).
Arguments Throw {A} message.

(** What [reader.read()] resolves to, one entry per call; the end of the
    list is [done]. *)
Inductive read_result : Type :=
| Chunk (value : list byte)
| ReadRejected (message : jsstring).

(** ** The platform

    What the worker calls and does not define.  [Number_toString] is the
    decimal rendering of a number when it is concatenated to a string;
    [JSON_parse] returns [None] where [JSON.parse] throws; [JSON_stringify]
    is total on parsed values; [decode] is the [TextDecoder] in streaming
    mode, whose state between two calls holds the bytes of a code point cut
    by the chunk boundary. *)

Class Platform : Type := {
  Number_toString : float -> jsstring;
  JSON_parse : jsstring -> throws json;
  JSON_stringify : json -> jsstring;
  decoder : Type;
  new_TextDecoder : decoder;
  decode : decoder -> list byte -> decoder * jsstring
}.

Section Worker.

Context {platform : Platform}.

(** *** String concatenation with [+] *)

Definition has_field (k : jsstring) (fs : list (jsstring * json)) : bool :=
  match lookup k fs with Some _ => true | None => false end.

(** [ToString].  An array joins its elements with commas, [null] elements
    as the empty string; a plain object is ["[object Object]"], unless an
    own property shadows [toString], which no parsed value can call. *)
Fixpoint to_string (v : json) : throws jsstring :=
  match v with
  | JNull => Some (lit "null")
  | JBool true => Some (lit "true")
  | JBool false => Some (lit "false")
  | JNum x => Some (Number_toString x)
  | JStr s => Some s
  | JArr items =>
      (fix join (l : list json) : throws jsstring :=
         match l with
         | [] => Some []
         | x :: rest =>
             e <- match x with JNull => Some [] | _ => to_string x end ;;
             match rest with
             | [] => Some e
             | _ :: _ => r <- join rest ;; Some (e ++ lit "," ++ r)
             end
         end) items
  | JObj fs =>
      if has_field (lit "toString") fs then None
      else Some (lit "[object Object]")
  end.

(** [ToPrimitive]: arrays and objects turn into their strings. *)
Definition to_primitive (v : json) : throws json :=
  match v with
  | JArr _ | JObj _ => s <- to_string v ;; Some (JStr s)
  | _ => Some v
  end.

(** [ToNumber] of [null], a boolean or a number. *)
Definition to_number (v : json) : float :=
  match v with
  | JBool true => 1%float
  | JNum x => x
  | _ => 0%float
  end.

(** [a + b]: concatenation as soon as one side is a string, the sum of the
    numbers otherwise. *)
Definition js_add (a b : json) : throws json :=
  pa <- to_primitive a ;;
  pb <- to_primitive b ;;
  match pa, pb with
  | JStr _, _ | _, JStr _ =>
      sa <- to_string pa ;; sb <- to_string pb ;; Some (JStr (sa ++ sb))
  | _, _ => Some (JNum (PrimFloat.add (to_number pa) (to_number pb)))
  end.

(** *** The delta merger (lines 187-221) *)

Definition THINK_OPEN : jsstring := lit "<think>" ++ [LF].
Definition THINK_CLOSE : jsstring := [LF] ++ lit "</think>" ++ [LF; LF].

Definition k_choices := lit "choices".
Definition k_delta := lit "delta".
Definition k_content := lit "content".
Definition k_reasoning := lit "reasoning_content".

(** Lines 192-206: the merged content and the new [reasoningStarted].  The
    flag is assigned after the concatenation on its line, so a throwing
    concatenation leaves it as it was at that line. *)
Definition combine (reasoning content : jsval) (reasoningStarted : bool)
  : throws json * bool :=
  let first :=
    match as_truthy reasoning with
    | Some r =>
        if negb reasoningStarted then
          match js_add (JStr THINK_OPEN) r with
          | Some c => (Some c, true)
          | None => (None, reasoningStarted)
          end
        else (Some r, reasoningStarted)
    | None => (Some (JStr []), reasoningStarted)
    end in
  match first with
  | (None, started) => (None, started)
  | (Some combinedContent, started) =>
      match as_truthy content with
      | Some c =>
          if started then
            match (t <- js_add (JStr THINK_CLOSE) c ;;
                   js_add combinedContent t) with
            | Some c' => (Some c', false)
            | None => (None, started)
            end
          else
            match js_add combinedContent c with
            | Some c' => (Some c', started)
            | None => (None, started)
            end
      | None => (Some combinedContent, started)
      end
  end.

(** [d.k = v] on a truthy [d], in strict mode: an object gets the property,
    an array gets one that [JSON.stringify] does not print, a primitive
    throws. *)
Definition assign (k : jsstring) (v : json) (d : json) : throws json :=
  match d with
  | JObj fs => Some (JObj (set_field k v fs))
  | JArr items => Some (JArr items)
  | _ => None
  end.

(** [delete d.k] on a truthy [d]. *)
Definition delete (k : jsstring) (d : json) : json :=
  match d with
  | JObj fs => JObj (remove_field k fs)
  | _ => d
  end.

(** The payload after its [choices[0].delta] object was mutated by [f]. *)
Definition with_delta (f : json -> throws json) (data : json) : throws json :=
  match data with
  | JObj top =>
      let put_choice (rebuild : json -> json) (choice : json) :=
        match choice with
        | JObj cf =>
            match lookup k_delta cf with
            | Some d =>
                d' <- f d ;;
                Some (JObj (set_field k_choices
                              (rebuild (JObj (set_field k_delta d' cf))) top))
            | None => Some data
            end
        | _ => Some data
        end in
      match lookup k_choices top with
      | Some (JArr (choice :: rest)) =>
          put_choice (fun c => JArr (c :: rest)) choice
      | Some (JObj chs) =>
          match lookup (lit "0") chs with
          | Some choice =>
              put_choice (fun c => JObj (set_field (lit "0") c chs)) choice
          | None => Some data
          end
      | _ => Some data
      end
  | _ => Some data
  end.

(** [data.choices?.[0]?.delta] *)
Definition delta_of (data : json) : throws jsval :=
  choices <- member k_choices (Some data) ;;
  Some (opt_member k_delta (opt_index0 choices)).

(** Lines 187-221.  The result is the payload to serialise, or [None]
    when a [TypeError] sends the line to the handler of line 225, and the
    value of [reasoningStarted] afterwards. *)
Definition merge (SHOW_REASONING reasoningStarted : bool) (data : json)
  : throws json * bool :=
  match delta_of data with
  | None => (None, reasoningStarted)
  | Some delta =>
      match as_truthy delta with
      | None => (Some data, reasoningStarted)
      | Some d =>
          let reasoning := opt_member k_reasoning (Some d) in
          let content := opt_member k_content (Some d) in
          if SHOW_REASONING then
            match combine reasoning content reasoningStarted with
            | (None, started) => (None, started)
            | (Some combinedContent, started) =>
                if json_truthy combinedContent then
                  (with_delta
                     (fun d0 =>
                        d1 <- assign k_content combinedContent d0 ;;
                        Some (delete k_reasoning d1)) data,
                   started)
                else (Some data, started)
            end
          else
            (with_delta
               (fun d0 =>
                  d1 <- assign k_content
                          match as_truthy content with
                          | Some c => c
                          | None => JStr []
                          end d0 ;;
                  Some (delete k_reasoning d1)) data,
             reasoningStarted)
      end
  end.

(** *** Computations on the writer *)

Definition io (A : Type) := list event -> result A * list event.

Definition ret {A : Type} (a : A) : io A := fun tr => (Ok a, tr).

Definition throw {A : Type} (message : jsstring) : io A :=
  fun tr => (Throw message, tr).

Definition io_bind {A B : Type} (m : io A) (k : A -> io B) : io B :=
  fun tr =>
    match m tr with
    | (Ok a, tr') => k a tr'
    | (Throw e, tr') => (Throw e, tr')
    end.

(** [try { m } catch (e) { h e }], [e] standing for [e.message]. *)
Definition try_catch {A : Type} (m : io A) (h : jsstring -> io A) : io A :=
  fun tr =>
    match m tr with
    | (Ok a, tr') => (Ok a, tr')
    | (Throw e, tr') => h e tr'
    end.

(** [try { m } finally { f }]: [f] runs in every case, and what it throws
    replaces the outcome of [m]. *)
Definition try_finally {A : Type} (m : io A) (f : io unit) : io A :=
  fun tr =>
    match m tr with
    | (r, tr') =>
        match f tr' with
        | (Ok _, tr'') => (r, tr'')
        | (Throw e, tr'') => (Throw e, tr'')
        end
    end.

Notation "x <~ m ;; k" := (io_bind m (fun x => k))
  (at level 61, m at next level, right associativity).
Notation "m >> k" := (io_bind m (fun _ => k))
  (at level 61, right associativity).

Variable client : downstream.

(** [await writer.write(encoder.encode(s))] *)
Definition write (s : jsstring) : io unit :=
  fun tr =>
    match client (List.length tr) with
    | None => (Ok tt, tr ++ [Written s])
    | Some e => (Throw e, tr ++ [WriteRejected s])
    end.

(** [await writer.close()] *)
Definition close : io unit :=
  fun tr =>
    match client (List.length tr) with
    | None => (Ok tt, tr ++ [Closed])
    | Some e => (Throw e, tr ++ [CloseRejected])
    end.

(** *** The stream pump (lines 143-248) *)

Definition DATA_PREFIX : jsstring := lit "data: ".
Definition DONE_TOKEN : jsstring := lit "[DONE]".
Definition SEPARATOR : jsstring := [LF; LF].
Definition DONE_FRAME : jsstring := lit "data: [DONE]" ++ SEPARATOR.

(** [`data: {"error": "${error.message}"}\n\n`] *)
Definition error_frame (message : jsstring) : jsstring :=
  lit "data: {" ++ [DQUOTE] ++ lit "error" ++ [DQUOTE] ++ lit ": "
    ++ [DQUOTE] ++ message ++ [DQUOTE] ++ lit "}" ++ SEPARATOR.

Definition data_frame (data : json) : jsstring :=
  DATA_PREFIX ++ JSON_stringify data ++ SEPARATOR.

(** [!line.trim()] *)
Definition is_blank (line : jsstring) : bool := negb (str_truthy (trim line)).

(** The body of the loop of line 174, for one line. *)
Definition process_line (SHOW_REASONING : bool) (line : jsstring)
  (reasoningStarted : bool) : io bool :=
  if is_blank line then ret reasoningStarted
  else if startsWith DATA_PREFIX line then
    if includes DONE_TOKEN line then
      write (line ++ SEPARATOR) >> ret reasoningStarted
    else
      let rewritten :=
        match JSON_parse (slice 6 line) with
        | Some data => merge SHOW_REASONING reasoningStarted data
        | None => (None, reasoningStarted)
        end in
      match rewritten with
      | (Some data, started) =>
          try_catch (write (data_frame data))
            (fun _ => write (line ++ SEPARATOR))
            >> ret started
      | (None, started) => write (line ++ SEPARATOR) >> ret started
      end
  else ret reasoningStarted.

Fixpoint for_lines (SHOW_REASONING : bool) (lines : list jsstring)
  (reasoningStarted : bool) : io bool :=
  match lines with
  | [] => ret reasoningStarted
  | line :: rest =>
      started <~ process_line SHOW_REASONING line reasoningStarted ;;
      for_lines SHOW_REASONING rest started
  end.

(** Lines 155-163: what is left in the buffer when the upstream ends. *)
Fixpoint write_remaining (lines : list jsstring) : io unit :=
  match lines with
  | [] => ret tt
  | line :: rest =>
      (if startsWith DATA_PREFIX (trim line)
          && negb (includes DONE_TOKEN line)
       then try_catch (write (line ++ SEPARATOR)) (fun _ => ret tt)
       else ret tt)
      >> write_remaining rest
  end.

(** Lines 151-168: the [done] branch. *)
Definition finish (buffer : jsstring) : io unit :=
  (if str_truthy (trim buffer) then write_remaining (split_nl buffer)
   else ret tt)
  >> write DONE_FRAME.

(** Lines 170-172: the complete lines of the buffer and what stays in it. *)
Definition feed (buffer text : jsstring) : list jsstring * jsstring :=
  let lines := split_nl (buffer ++ text) in
  (removelast lines, last lines []).

(** The [while (true)] of line 148. *)
Fixpoint loop (SHOW_REASONING : bool) (reads : list read_result)
  (buffer : jsstring) (dec : decoder) (reasoningStarted : bool) : io unit :=
  match reads with
  | [] => finish buffer
  | ReadRejected e :: _ => throw e
  | Chunk value :: rest =>
      let (dec', text) := decode dec value in
      let (lines, buffer') := feed buffer text in
      started <~ for_lines SHOW_REASONING lines reasoningStarted ;;
      loop SHOW_REASONING rest buffer' dec' started
  end.

(** Lines 233-241: the handler of the outer [try]. *)
Definition report (message : jsstring) : io unit :=
  try_catch (write (error_frame message) >> write DONE_FRAME)
    (fun _ => ret tt).

(** Lines 146-249: one exchange, from an untouched writer: how the
    asynchronous function ends and the trace it leaves on the writer. *)
Definition pump (SHOW_REASONING : bool) (reads : list read_result)
  : result unit * list event :=
  try_finally
    (try_catch (loop SHOW_REASONING reads [] new_TextDecoder false) report)
    (try_catch close (fun _ => ret tt))
    [].

(** *** The one-shot reshaper of a non-streamed choice (lines 269-284) *)

Record openai_choice : Type := {
  choice_index : jsval;
  choice_role : jsval;
  choice_content : json;
  choice_finish_reason : jsval
}.

(** [v || d] *)
Definition js_or (v : jsval) (d : json) : json :=
  match as_truthy v with Some x => x | None => d end.

Definition reshape_choice (SHOW_REASONING : bool) (choice : json)
  : throws openai_choice :=
  message <- member (lit "message") (Some choice) ;;
  let fullContent := js_or (opt_member k_content message) (JStr []) in
  fullContent' <-
    match (if SHOW_REASONING
           then as_truthy (opt_member k_reasoning message) else None) with
    | Some r =>
        a <- js_add (JStr THINK_OPEN) r ;;
        b <- js_add a (JStr THINK_CLOSE) ;;
        js_add b fullContent
    | None => Some fullContent
    end ;;
  index <- member (lit "index") (Some choice) ;;
  role <- member (lit "role") message ;;
  finish <- member (lit "finish_reason") (Some choice) ;;
  Some {| choice_index := index; choice_role := role;
          choice_content := fullContent'; choice_finish_reason := finish |}.

End Worker.

(** ** The upstream request (lines 93-109) *)

Record nim_request : Type := {
  nim_model : jsval;
  nim_messages : jsval;
  nim_temperature : json;
  nim_max_tokens : json;
  nim_stream : json;
  nim_extra_body : jsval
}.

Definition DEFAULT_TEMPERATURE : json := JNum 0.6%float.
Definition DEFAULT_MAX_TOKENS : json := JNum 9024%float.

(** Destructuring [null] throws; any other body yields [undefined] for
    the properties it lacks. *)
Definition build_nim_request (ENABLE_THINKING_MODE : bool) (body : json)
  : throws nim_request :=
  match body with
  | JNull => None
  | _ =>
      let field k := opt_member (lit k) (Some body) in
      Some {| nim_model := field "model"%string;
              nim_messages := field "messages"%string;
              nim_temperature :=
                js_or (field "temperature"%string) DEFAULT_TEMPERATURE;
              nim_max_tokens :=
                js_or (field "max_tokens"%string) DEFAULT_MAX_TOKENS;
              nim_stream := js_or (field "stream"%string) (JBool false);
              nim_extra_body :=
                if ENABLE_THINKING_MODE
                then Some (JObj [(lit "chat_template_kwargs",
                                  JObj [(lit "thinking", JBool true)])])
                else None |}
  end.

(** ** The upstream failure response (lines 121-133) *)

Record upstream_response : Type := {
  upstream_status : N;
  upstream_text : jsstring
}.

(** [response.ok] *)
Definition upstream_ok (r : upstream_response) : bool :=
  (200 <=? upstream_status r) && (upstream_status r <=? 299).

Record error_response : Type := {
  error_message : jsstring;
  error_type : jsstring;
  error_code : N;
  http_status : N
}.

Definition NIM_ERROR_MESSAGE : jsstring :=
  lit "NIM API error - check if your API key is valid".

(** The statuses that go with no body. *)
Definition null_body_status (status : N) : bool :=
  (status =? 101) || (status =? 204) || (status =? 205) || (status =? 304).

(** [new Response(body, { status })] with a body throws unless the status
    is from 200 to 599 and goes with a body. *)
Definition Response_accepts (status : N) : bool :=
  (200 <=? status) && (status <=? 599) && negb (null_body_status status).

(** Lines 121-133: [None] when the upstream answered 2xx; otherwise the
    response of lines 123-132, or [Some None] when [new Response] throws
    on the upstream status (the handler of line 297 then answers). *)
Definition upstream_failure (r : upstream_response)
  : option (throws error_response) :=
  if upstream_ok r then None
  else if Response_accepts (upstream_status r) then
    Some (Some {| error_message :=
                    if str_truthy (upstream_text r) then upstream_text r
                    else NIM_ERROR_MESSAGE;
                  error_type := lit "api_error";
                  error_code := upstream_status r;
                  http_status := upstream_status r |})
  else Some None.

(** ** Vocabulary of the properties *)

(** A payload of the wire shape [{choices: [{delta: {...}}]}]. *)
Definition delta_payload (fields : list (jsstring * json)) : json :=
  JObj [(k_choices, JArr [JObj [(k_delta, JObj fields)]])].

Definition reasoning_delta (r : jsstring) : json :=
  delta_payload [(k_reasoning, JStr r)].

Definition content_delta (c : jsstring) : json :=
  delta_payload [(k_content, JStr c)].

Definition both_delta (r c : jsstring) : json :=
  delta_payload [(k_reasoning, JStr r); (k_content, JStr c)].

(** The text a client reads in [choices[0].delta.content]. *)
Definition delta_content (data : json) : jsstring :=
  match delta_of data with
  | Some (Some (JObj fs)) =>
      match lookup k_content fs with Some (JStr s) => s | _ => [] end
  | _ => []
  end.

(** The content stream of a sequence of payloads: what the client reads,
    concatenated, and the state of the merger at the end.  A payload whose
    rewriting throws reaches the client as it came. *)
Fixpoint merged_content {platform : Platform} (SHOW_REASONING : bool)
  (payloads : list json) (reasoningStarted : bool) : jsstring * bool :=
  match payloads with
  | [] => ([], reasoningStarted)
  | data :: rest =>
      let (out, started) := merge SHOW_REASONING reasoningStarted data in
      let (tail, final) := merged_content SHOW_REASONING rest started in
      (delta_content (match out with Some d => d | None => data end) ++ tail,
       final)
  end.

(** A (reasoning, answer) pair streamed as successive deltas: the fragments
    of the reasoning, then the fragments of the answer. *)
Definition streamed (rs cs : list jsstring) : list json :=
  map reasoning_delta rs ++ map content_delta cs.

(** The same pair as one non-streamed choice. *)
Definition one_shot (r c : jsstring) : json :=
  JObj [(lit "index", JNum 0%float);
        (lit "message",
         JObj [(lit "role", JStr (lit "assistant"));
               (k_content, JStr c); (k_reasoning, JStr r)]);
        (lit "finish_reason", JStr (lit "stop"))].

(** The text of a reasoning run followed by its answer, as the client is
    meant to read it. *)
Definition wrapped (block : list jsstring * list jsstring) : jsstring :=
  THINK_OPEN ++ List.concat (fst block) ++ THINK_CLOSE
    ++ List.concat (snd block).

(** The choices of a payload other than the first. *)
Definition other_choices (data : json) : jsval :=
  match opt_member k_choices (Some data) with
  | Some (JArr (_ :: rest)) => Some (JArr rest)
  | Some (JObj chs) => Some (JObj (remove_field (lit "0") chs))
  | other => other
  end.

(** Two payloads agree on everything but [choices[0].delta]. *)
Definition same_outside_delta (data data' : json) : Prop :=
  (forall k, k <> k_choices ->
             opt_member k (Some data') = opt_member k (Some data))
  /\ (forall k, k <> k_delta ->
                opt_member k (opt_index0 (opt_member k_choices (Some data')))
                = opt_member k (opt_index0 (opt_member k_choices (Some data))))
  /\ other_choices data' = other_choices data.

(** The parser alone: the complete lines of a sequence of chunks, in order,
    and the buffer after the last one. *)
Fixpoint feed_all {platform : Platform} (chunks : list (list byte))
  (buffer : jsstring) (dec : decoder) : list jsstring * jsstring :=
  match chunks with
  | [] => ([], buffer)
  | value :: rest =>
      let (dec', text) := decode dec value in
      let (lines, buffer') := feed buffer text in
      let (more, final) := feed_all rest buffer' dec' in
      (lines ++ more, final)
  end.

(** The text the decoder makes of a sequence of chunks. *)
Fixpoint decode_all {platform : Platform} (chunks : list (list byte))
  (dec : decoder) : jsstring :=
  match chunks with
  | [] => []
  | value :: rest =>
      let (dec', text) := decode dec value in text ++ decode_all rest dec'
  end.

(** The decoder does not depend on where the chunks are cut. *)
Definition streaming_decoder (platform : Platform) : Prop :=
  (forall d, decode d [] = (d, [])) /\
  (forall d a b,
      decode d (a ++ b) =
      let (d1, t1) := decode d a in
      let (d2, t2) := decode d1 b in (d2, t1 ++ t2)).

Definition has_newline (s : jsstring) : bool := existsb (N.eqb LF) s.

(** Events of a trace. *)
Definition is_terminal_frame (s : jsstring) : bool :=
  startsWith DATA_PREFIX s && includes DONE_TOKEN s.

Definition delivers_terminal (e : event) : bool :=
  match e with Written s => is_terminal_frame s | _ => false end.

Definition is_close_attempt (e : event) : bool :=
  match e with Closed | CloseRejected => true | _ => false end.

Definition is_rejected_write (e : event) : bool :=
  match e with WriteRejected _ => true | _ => false end.

Definition count (p : event -> bool) (tr : list event) : nat :=
  List.length (filter p tr).

(** A client that accepts every operation. *)
Definition attentive : downstream := fun _ => None.

(** A client that is gone after [n] operations. *)
Definition gone_after (n : nat) (e : jsstring) : downstream :=
  fun i => if Nat.ltb i n then None else Some e.

(** Once an operation was rejected, all later ones are. *)
Definition sticky (client : downstream) : Prop :=
  forall i j, (i <= j)%nat -> client i <> None -> client j <> None.

(** What the handler of line 233 leaves on the writer for an error. *)
Definition report_trace (client : downstream) (tr : list event)
  (message : jsstring) : list event :=
  match client (List.length tr) with
  | Some _ => [WriteRejected (error_frame message)]
  | None =>
      [Written (error_frame message);
       match client (S (List.length tr)) with
       | Some _ => WriteRejected DONE_FRAME
       | None => Written DONE_FRAME
       end]
  end.

Definition close_event (client : downstream) (tr : list event) : event :=
  match client (List.length tr) with
  | Some _ => CloseRejected
  | None => Closed
  end.

(** A complete line that the loop of line 174 answers with a frame. *)
Definition is_data_line (line : jsstring) : bool :=
  negb (is_blank line) && startsWith DATA_PREFIX line.

(** The frame such a line turns into, and [reasoningStarted] after it. *)
Definition rewritten_line {platform : Platform} (SHOW_REASONING : bool)
  (line : jsstring) (reasoningStarted : bool) : jsstring * bool :=
  if includes DONE_TOKEN line then (line ++ SEPARATOR, reasoningStarted)
  else
    match JSON_parse (slice 6 line) with
    | None => (line ++ SEPARATOR, reasoningStarted)
    | Some data =>
        match merge SHOW_REASONING reasoningStarted data with
        | (Some data', started) => (data_frame data', started)
        | (None, started) => (line ++ SEPARATOR, started)
        end
    end.

(** A computation that only adds write attempts to the trace. *)
Definition adds_writes {A : Type} (m : io A) : Prop :=
  forall tr, exists added,
    snd (m tr) = tr ++ added /\ count is_close_attempt added = 0%nat.

(** Every write so far was accepted, or the writer already rejects. *)
Definition clean_or_broken (client : downstream) (tr : list event) : Prop :=
  existsb is_rejected_write tr = false \/ client (List.length tr) <> None.

(** A computation that keeps [clean_or_broken]. *)
Definition keeps_writer (client : downstream) {A : Type} (m : io A) : Prop :=
  forall tr, clean_or_broken client tr -> clean_or_broken client (snd (m tr)).

(** ** A platform to run the model on

    ASCII bytes decode to themselves, numbers print as [0], and the parser
    knows the texts of [sample_texts]. *)

Definition quoted (s : jsstring) : jsstring := [DQUOTE] ++ s ++ [DQUOTE].

Fixpoint sample_stringify (v : json) : jsstring :=
  match v with
  | JNull => lit "null"
  | JBool true => lit "true"
  | JBool false => lit "false"
  | JNum _ => lit "0"
  | JStr s => quoted s
  | JArr items =>
      lit "[" ++
      (fix go (l : list json) : jsstring :=
         match l with
         | [] => []
         | x :: r =>
             sample_stringify x ++
             match r with [] => [] | _ :: _ => lit "," ++ go r end
         end) items ++ lit "]"
  | JObj fs =>
      lit "{" ++
      (fix go (l : list (jsstring * json)) : jsstring :=
         match l with
         | [] => []
         | (k, x) :: r =>
             quoted k ++ lit ":" ++ sample_stringify x ++
             match r with [] => [] | _ :: _ => lit "," ++ go r end
         end) fs ++ lit "}"
  end.

(** A first delta as upstreams send it: a role, no text yet. *)
Definition idle_delta : json :=
  delta_payload [(lit "role", JStr (lit "assistant"));
                 (k_content, JStr []); (k_reasoning, JNull)].

Definition empty_reasoning_delta : json :=
  delta_payload [(lit "role", JStr (lit "assistant"));
                 (k_reasoning, JStr [])].

Definition sample_texts : list (jsstring * json) :=
  map (fun d => (sample_stringify d, d))
      [content_delta (lit "x"); reasoning_delta (lit "r");
       both_delta (lit "r") (lit "a");
       idle_delta; JNull].

Definition ascii_decode (d : unit) (value : list byte) : unit * jsstring :=
  (d, map Byte.to_N value).

Definition sample_platform : Platform :=
  {| Number_toString := fun _ => lit "0";
     JSON_parse := fun s => lookup s sample_texts;
     JSON_stringify := sample_stringify;
     decoder := unit;
     new_TextDecoder := tt;
     decode := ascii_decode |}.

(** The bytes of an ASCII text. *)
Definition bytes (s : string) : list byte := list_byte_of_string s.
Definition NL : list byte := [x0a].

(** ** The API key (lines 14-20) *)

(** Case folding of [/i] on a pattern of ASCII letters: only the two ASCII
    cases of a letter match it. *)
Definition ascii_lower (c : code_unit) : code_unit :=
  if (65 <=? c) && (c <=? 90) then c + 32 else c.

(** [/^Bearer\s+/i] matched against [s]: what follows the match, [None]
    when there is none.  [\s+] is greedy and [\s] is the white space of
    [trim]. *)
Definition after_bearer (s : jsstring) : option jsstring :=
  if str_eqb (map ascii_lower (firstn 6 s)) (lit "bearer") then
    match skipn 6 s with
    | c :: rest => if is_white_space c then Some (trim_start rest) else None
    | [] => None
    end
  else None.

(** [authHeader.replace(/^Bearer\s+/i, '')] *)
Definition strip_bearer (authHeader : jsstring) : jsstring :=
  match after_bearer authHeader with
  | Some rest => rest
  | None => authHeader
  end.

(** [NIM_API_KEY] after line 20; [None] is [null]. *)
Definition extract_api_key (authHeader : option jsstring) : option jsstring :=
  match authHeader with
  | Some h => if str_truthy h then Some (trim (strip_bearer h)) else None
  | None => None
  end.

(** The key when [!NIM_API_KEY] is false. *)
Definition usable_key (NIM_API_KEY : option jsstring) : option jsstring :=
  match NIM_API_KEY with
  | Some k => if str_truthy k then Some k else None
  | None => None
  end.

(** ** The non-streamed response (lines 262-290) *)

Record openai_response : Type := {
  response_id_stamp : float;
  response_object : jsstring;
  response_created_ms : float;
  response_model : jsval;
  response_choices : list openai_choice;
  response_usage : json
}.

Definition DEFAULT_USAGE : json :=
  JObj [(lit "prompt_tokens", JNum 0%float);
        (lit "completion_tokens", JNum 0%float);
        (lit "total_tokens", JNum 0%float)].

(** [choices.map(f)] where [f] may throw. *)
Fixpoint map_throws {A B : Type} (f : A -> throws B) (l : list A)
  : throws (list B) :=
  match l with
  | [] => Some []
  | x :: rest => y <- f x ;; ys <- map_throws f rest ;; Some (y :: ys)
  end.

(** Lines 264-290.  [stamp] is the clock reading printed in [id],
    [created_ms] the one whose floored thousandth is [created].  Calling
    [map] on anything but an array throws. *)
Definition reshape_response {platform : Platform} (SHOW_REASONING : bool)
  (stamp created_ms : float) (model : jsval) (data : json)
  : throws openai_response :=
  choices <- member k_choices (Some data) ;;
  match choices with
  | Some (JArr items) =>
      reshaped <- map_throws (reshape_choice SHOW_REASONING) items ;;
      Some {| response_id_stamp := stamp;
              response_object := lit "chat.completion";
              response_created_ms := created_ms;
              response_model := model;
              response_choices := reshaped;
              response_usage :=
                js_or (opt_member (lit "usage") (Some data)) DEFAULT_USAGE |}
  | _ => None
  end.

(** ** The handler (lines 10-322) *)

Definition headers := list (jsstring * jsstring).

Definition corsHeaders : headers :=
  [(lit "Access-Control-Allow-Origin", lit "*");
   (lit "Access-Control-Allow-Methods", lit "GET, POST, OPTIONS");
   (lit "Access-Control-Allow-Headers", lit "Content-Type, Authorization")].

(** [{ ...corsHeaders, 'Content-Type': 'application/json' }] *)
Definition json_headers : headers :=
  corsHeaders ++ [(lit "Content-Type", lit "application/json")].

Definition stream_headers : headers :=
  corsHeaders ++ [(lit "Content-Type", lit "text/event-stream");
                  (lit "Cache-Control", lit "no-cache");
                  (lit "Connection", lit "keep-alive")].

(** The message of a caught error: the one it was rejected with, or the
    text the engine gives a [TypeError], which is not empty. *)
Inductive error_text : Type :=
| Given (message : jsstring)
| EngineText.

(** What is handed to [JSON.stringify], or the stream, as the body. *)
Inductive response_body : Type :=
| NoBody
| JsonBody (value : json)
| ErrorBody (message : error_text) (type : jsstring) (code : N)
| CompletionBody (completion : openai_response)
| StreamBody (exchange : downstream -> result unit * list event).

Record response : Type := {
  status : N;
  response_headers : headers;
  body : response_body
}.

Record request : Type := {
  request_method : jsstring;
  request_pathname : jsstring;
  request_authorization : option jsstring;
  request_json : result json
}.

(** The answer of [fetch(`${NIM_API_BASE}/models`)]. *)
Record models_reply : Type := {
  models_ok : bool;
  models_json : result json
}.

(** The answer of [fetch(`${NIM_API_BASE}/chat/completions`)]; a [null]
    body is [None]. *)
Record chat_reply : Type := {
  chat_status : N;
  chat_text : result jsstring;
  chat_json : result json;
  chat_body : option (list read_result)
}.

(** The world of one request: the clock, reading by reading, and the
    upstream, called with the key. *)
Record environment : Type := {
  now : nat -> float;
  fetch_models : jsstring -> result models_reply;
  fetch_chat : jsstring -> nim_request -> result chat_reply
}.

Definition json_response (value : json) : response :=
  {| status := 200; response_headers := json_headers;
     body := JsonBody value |}.

Definition error_reply (code : N) (message : error_text) (type : jsstring)
  : response :=
  {| status := code; response_headers := json_headers;
     body := ErrorBody message type code |}.

(** Lines 36-44 *)
Definition health_body (SHOW_REASONING ENABLE_THINKING_MODE : bool) : json :=
  JObj [(lit "status", JStr (lit "ok"));
        (lit "service",
         JStr (lit "OpenAI to NVIDIA NIM Proxy (Cloudflare Workers)"));
        (lit "reasoning_display", JBool SHOW_REASONING);
        (lit "thinking_mode", JBool ENABLE_THINKING_MODE);
        (lit "api_key_required",
         JStr (lit "Pass your NVIDIA API key in Janitor AI settings"))].

Definition NO_KEY_MESSAGE : jsstring :=
  lit "No API key provided. "
    ++ lit "Please enter your NVIDIA API key in Janitor AI settings.".

(** Lines 77-84: the static list, each entry with the clock reading of
    its turn. *)
Definition fallback_models (now : nat -> float) : json :=
  let entry (id : string) (turn : nat) :=
    JObj [(lit "id", JStr (lit id)); (lit "object", JStr (lit "model"));
          (lit "created", JNum (now turn));
          (lit "owned_by", JStr (lit "nvidia"))] in
  JObj [(lit "object", JStr (lit "list"));
        (lit "data",
         JArr [entry "meta/llama-3.1-405b-instruct"%string 0%nat;
               entry "meta/llama-3.1-70b-instruct"%string 1%nat;
               entry "meta/llama-3.1-8b-instruct"%string 2%nat])].

(** Lines 62-87: the upstream list when it can be had, the static one
    otherwise. *)
Definition models_endpoint (env : environment) (key : jsstring) : response :=
  let fallback := json_response (fallback_models (now env)) in
  match fetch_models env key with
  | Ok reply =>
      if models_ok reply then
        match models_json reply with
        | Ok data => json_response data
        | Throw _ => fallback
        end
      else fallback
  | Throw _ => fallback
  end.

(** [error.message || 'Internal server error'] *)
Definition internal_error (e : error_text) : response :=
  error_reply 500
    match e with
    | Given m => Given (if str_truthy m then m else lit "Internal server error")
    | EngineText => EngineText
    end
    (lit "invalid_request_error").

(** Lines 91-308.  [inr e] is a throw caught at line 297. *)
Definition chat_completions {platform : Platform}
  (SHOW_REASONING ENABLE_THINKING_MODE : bool) (env : environment)
  (key : jsstring) (req : request) : response :=
  let caught {A : Type} (r : result A) : response + A :=
    match r with
    | Ok a => inr a
    | Throw m => inl (internal_error (Given m))
    end in
  let raised {A : Type} (r : throws A) : response + A :=
    match r with
    | Some a => inr a
    | None => inl (internal_error EngineText)
    end in
  let attempt :=
    match caught (request_json req) with
    | inl r => r
    | inr body =>
    match raised (build_nim_request ENABLE_THINKING_MODE body) with
    | inl r => r
    | inr nimRequest =>
    match caught (fetch_chat env key nimRequest) with
    | inl r => r
    | inr reply =>
        if negb ((200 <=? chat_status reply) && (chat_status reply <=? 299))
        then
          match caught (chat_text reply) with
          | inl r => r
          | inr errorText =>
              match upstream_failure
                      {| upstream_status := chat_status reply;
                         upstream_text := errorText |} with
              | Some (Some e) =>
                  {| status := http_status e;
                     response_headers := json_headers;
                     body := ErrorBody (Given (error_message e))
                                       (error_type e) (error_code e) |}
              | Some None | None => internal_error EngineText
              end
          end
        else if truthy (opt_member (lit "stream") (Some body)) then
          match raised (chat_body reply) with
          | inl r => r
          | inr reads =>
              {| status := 200; response_headers := stream_headers;
                 body := StreamBody
                           (fun client => pump client SHOW_REASONING reads) |}
          end
        else
          match caught (chat_json reply) with
          | inl r => r
          | inr data =>
              match raised (reshape_response SHOW_REASONING
                              (now env 0%nat) (now env 1%nat)
                              (nim_model nimRequest) data) with
              | inl r => r
              | inr completion =>
                  {| status := 200; response_headers := json_headers;
                     body := CompletionBody completion |}
              end
          end
    end end end in
  attempt.

(** Lines 10-322 *)
Definition handle {platform : Platform}
  (SHOW_REASONING ENABLE_THINKING_MODE : bool) (env : environment)
  (req : request) : response :=
  let NIM_API_KEY := extract_api_key (request_authorization req) in
  if str_eqb (request_method req) (lit "OPTIONS") then
    {| status := 200; response_headers := corsHeaders; body := NoBody |}
  else if str_eqb (request_pathname req) (lit "/health") then
    json_response (health_body SHOW_REASONING ENABLE_THINKING_MODE)
  else
    match usable_key NIM_API_KEY with
    | None =>
        error_reply 401 (Given NO_KEY_MESSAGE) (lit "authentication_error")
    | Some key =>
        if str_eqb (request_pathname req) (lit "/v1/models") then
          models_endpoint env key
        else if str_eqb (request_pathname req) (lit "/v1/chat/completions")
                && str_eqb (request_method req) (lit "POST") then
          chat_completions SHOW_REASONING ENABLE_THINKING_MODE env key req
        else
          error_reply 404
            (Given (lit "Endpoint " ++ request_pathname req
                      ++ lit " not found"))
            (lit "invalid_request_error")
    end.

(** ** Vocabulary of the further properties *)

(** Lines put back together: [lines.join('\n')]. *)
Fixpoint join_nl (lines : list jsstring) : jsstring :=
  match lines with
  | [] => []
  | line :: rest =>
      match rest with
      | [] => line
      | _ :: _ => line ++ LF :: join_nl rest
      end
  end.

(** The frames of a sequence of complete lines, in order, and
    [reasoningStarted] after them. *)
Fixpoint rewritten_lines {platform : Platform} (SHOW_REASONING : bool)
  (lines : list jsstring) (reasoningStarted : bool)
  : list jsstring * bool :=
  match lines with
  | [] => ([], reasoningStarted)
  | line :: rest =>
      if is_data_line line then
        let (frame, started) :=
          rewritten_line SHOW_REASONING line reasoningStarted in
        let (frames, final) := rewritten_lines SHOW_REASONING rest started in
        (frame :: frames, final)
      else rewritten_lines SHOW_REASONING rest reasoningStarted
  end.

(** A line of the buffer that the [done] branch forwards. *)
Definition is_leftover_data (line : jsstring) : bool :=
  startsWith DATA_PREFIX (trim line) && negb (includes DONE_TOKEN line).

(** The frames the [done] branch makes of the buffer, before the terminal
    one. *)
Definition leftover_frames (buffer : jsstring) : list jsstring :=
  if str_truthy (trim buffer)
  then map (fun line => line ++ SEPARATOR)
           (filter is_leftover_data (split_nl buffer))
  else [].

(** The whole stream a client that stays receives for a sequence of
    chunks. *)
Definition transcoded {platform : Platform} (SHOW_REASONING : bool)
  (chunks : list (list byte)) : list jsstring :=
  let (lines, rest) := feed_all chunks [] new_TextDecoder in
  fst (rewritten_lines SHOW_REASONING lines false)
    ++ leftover_frames rest ++ [DONE_FRAME].

(** The bytes of a text of ASCII code units. *)
Definition ascii_bytes (s : jsstring) : list byte :=
  flat_map (fun c => match Byte.of_N c with Some b => [b] | None => [] end) s.

(** A field that holds text, [null] or nothing. *)
Definition text_or_absent (v : jsval) : bool :=
  match v with
  | None | Some JNull | Some (JStr _) => true
  | Some _ => false
  end.

Definition text_of (v : jsval) : jsstring :=
  match v with Some (JStr s) => s | _ => [] end.

Definition is_error_body (b : response_body) : bool :=
  match b with ErrorBody _ _ _ => true | _ => false end.

(** A response a browser may read, whose status tells whether its body is
    an error and, if so, which. *)
Definition answers_properly (r : response) : Prop :=
  incl corsHeaders (response_headers r)
  /\ match body r with
     | ErrorBody _ _ code => status r = code /\ code <> 200
     | _ => status r = 200
     end.

(** A request with no body to read and an upstream that is down. *)
Definition bare_request (method pathname : jsstring)
  (authorization : option jsstring) : request :=
  {| request_method := method; request_pathname := pathname;
     request_authorization := authorization;
     request_json := Throw (lit "Unexpected end of JSON input") |}.

Definition upstream_down : environment :=
  {| now := fun _ => 0%float;
     fetch_models := fun _ => Throw (lit "network error");
     fetch_chat := fun _ _ => Throw (lit "network error") |}.

(** A POST of [body] to the chat endpoint with a key, and an upstream that
    answers it with [reply]. *)
Definition chat_request (body : json) : request :=
  {| request_method := lit "POST";
     request_pathname := lit "/v1/chat/completions";
     request_authorization := Some (lit "Bearer nvapi-1");
     request_json := Ok body |}.

Definition upstream_answering (reply : chat_reply) : environment :=
  {| now := fun _ => 0%float;
     fetch_models := fun _ => Throw (lit "network error");
     fetch_chat := fun _ _ => Ok reply |}.

(** ** Properties *)

(** *** Strings and properties of objects *)

Lemma str_eqb_refl (a : jsstring) : str_eqb a a = true.
Proof.
  induction a as [|x a IH]; simpl; [reflexivity|].
  now rewrite N.eqb_refl.
Qed.

Lemma str_eqb_eq (a b : jsstring) : str_eqb a b = true <-> a = b.
Proof.
  split; [|intros ->; apply str_eqb_refl].
  revert b; induction a as [|x a IH]; intros [|y b]; simpl; try easy.
  intros H. apply andb_true_iff in H as [Hx Hab].
  apply N.eqb_eq in Hx. f_equal; auto.
Qed.

Lemma str_eqb_neq (a b : jsstring) : a <> b -> str_eqb a b = false.
Proof.
  intros H. destruct (str_eqb a b) eqn:E; [|reflexivity].
  now apply str_eqb_eq in E.
Qed.

Lemma str_eqb_sym (a b : jsstring) : str_eqb a b = str_eqb b a.
Proof.
  destruct (str_eqb b a) eqn:E.
  - apply str_eqb_eq in E. subst. apply str_eqb_refl.
  - destruct (str_eqb a b) eqn:E'; [|reflexivity].
    apply str_eqb_eq in E'. subst. now rewrite str_eqb_refl in E.
Qed.

Lemma lookup_set_same k v fs : lookup k (set_field k v fs) = Some v.
Proof.
  induction fs as [|[k' v'] fs IH]; simpl.
  - now rewrite str_eqb_refl.
  - destruct (str_eqb k k') eqn:E; simpl.
    + now rewrite str_eqb_refl.
    + now rewrite E.
Qed.

Lemma lookup_set_other k k' v fs :
  k' <> k -> lookup k' (set_field k v fs) = lookup k' fs.
Proof.
  intros Hne. induction fs as [|[k0 v0] fs IH]; simpl.
  - now rewrite (str_eqb_neq Hne).
  - destruct (str_eqb k k0) eqn:E; simpl.
    + apply str_eqb_eq in E. subst k0. now rewrite (str_eqb_neq Hne).
    + now rewrite IH.
Qed.

Lemma lookup_remove_same k fs : lookup k (remove_field k fs) = None.
Proof.
  induction fs as [|[k' v'] fs IH]; simpl; [reflexivity|].
  destruct (str_eqb k k') eqn:E; simpl; [assumption|].
  now rewrite E.
Qed.

Lemma lookup_remove_other k k' fs :
  k' <> k -> lookup k' (remove_field k fs) = lookup k' fs.
Proof.
  intros Hne. induction fs as [|[k0 v0] fs IH]; simpl; [reflexivity|].
  destruct (str_eqb k k0) eqn:E; simpl.
  - apply str_eqb_eq in E. subst k0. now rewrite (str_eqb_neq Hne).
  - now rewrite IH.
Qed.

(** *** The merger on a run of reasoning and a run of answer *)

Section MergerRuns.

Context {platform : Platform}.

Lemma merge_reasoning_delta (started : bool) (r : jsstring) :
  merge true started (reasoning_delta r) =
  if str_truthy r
  then (Some (content_delta ((if started then [] else THINK_OPEN) ++ r)), true)
  else (Some (reasoning_delta r), started).
Proof. destruct r, started; reflexivity. Qed.

Lemma merge_content_delta (started : bool) (c : jsstring) :
  merge true started (content_delta c) =
  if str_truthy c
  then (Some (content_delta ((if started then THINK_CLOSE else []) ++ c)),
        false)
  else (Some (content_delta c), started).
Proof. destruct c, started; reflexivity. Qed.

Lemma delta_content_content (c : jsstring) :
  delta_content (content_delta c) = c.
Proof. reflexivity. Qed.

Lemma delta_content_reasoning (r : jsstring) :
  delta_content (reasoning_delta r) = [].
Proof. reflexivity. Qed.

Lemma merged_content_app show (xs ys : list json) (started : bool) :
  merged_content show (xs ++ ys) started =
  let (a, mid) := merged_content show xs started in
  let (b, final) := merged_content show ys mid in
  (a ++ b, final).
Proof.
  revert started. induction xs as [|x xs IH]; intros started; simpl.
  - now destruct (merged_content show ys started).
  - destruct (merge show started x) as [out st].
    rewrite IH. destruct (merged_content show xs st) as [a mid].
    destruct (merged_content show ys mid) as [b final].
    now rewrite app_assoc.
Qed.

(** A run of reasoning fragments: the opening marker once, before the
    first fragment that is not empty. *)
Lemma merged_reasoning_run (rs : list jsstring) (started : bool) :
  merged_content true (map reasoning_delta rs) started =
  if str_truthy (List.concat rs)
  then ((if started then [] else THINK_OPEN) ++ List.concat rs, true)
  else ([], started).
Proof.
  revert started. induction rs as [|r rs IH]; intros started; simpl.
  - reflexivity.
  - rewrite merge_reasoning_delta. destruct r as [|x r].
    + simpl. rewrite IH. now destruct (List.concat rs).
    + cbn [str_truthy]. rewrite IH. rewrite delta_content_content.
      cbn [List.concat app str_truthy].
      destruct (List.concat rs); destruct started; simpl;
        rewrite <- ?app_assoc, ?app_nil_r; reflexivity.
Qed.

(** A run of answer fragments: the closing marker once, before the first
    fragment that is not empty, when a reasoning block is open. *)
Lemma merged_content_run (cs : list jsstring) (started : bool) :
  merged_content true (map content_delta cs) started =
  if str_truthy (List.concat cs)
  then ((if started then THINK_CLOSE else []) ++ List.concat cs, false)
  else ([], started).
Proof.
  revert started. induction cs as [|c cs IH]; intros started; simpl.
  - reflexivity.
  - rewrite merge_content_delta. destruct c as [|x c].
    + simpl. rewrite IH. now destruct (List.concat cs).
    + cbn [str_truthy]. rewrite IH. rewrite delta_content_content.
      cbn [List.concat app str_truthy].
      destruct (List.concat cs); destruct started; simpl;
        rewrite <- ?app_assoc, ?app_nil_r; reflexivity.
Qed.

Lemma merged_streamed (rs cs : list jsstring) :
  merged_content true (streamed rs cs) false =
  match str_truthy (List.concat rs), str_truthy (List.concat cs) with
  | true, true =>
      (THINK_OPEN ++ List.concat rs ++ THINK_CLOSE ++ List.concat cs, false)
  | true, false => (THINK_OPEN ++ List.concat rs, true)
  | false, true => (List.concat cs, false)
  | false, false => ([], false)
  end.
Proof.
  unfold streamed. rewrite merged_content_app, merged_reasoning_run.
  destruct (List.concat rs); cbn [str_truthy]; rewrite merged_content_run;
    destruct (List.concat cs); simpl;
    rewrite <- ?app_assoc, ?app_nil_r; reflexivity.
Qed.

Lemma reshape_one_shot (r c : jsstring) :
  option_map choice_content (reshape_choice true (one_shot r c)) =
  Some (JStr (if str_truthy r then THINK_OPEN ++ r ++ THINK_CLOSE ++ c
              else c)).
Proof.
  destruct r as [|x r], c as [|y c]; cbn; rewrite <- ?app_assoc; reflexivity.
Qed.

End MergerRuns.

Lemma merged_blocks {platform : Platform}
  (blocks : list (list jsstring * list jsstring)) :
  Forall (fun b => List.concat (fst b) <> [] /\ List.concat (snd b) <> [])
         blocks ->
  merged_content true (flat_map (fun b => streamed (fst b) (snd b)) blocks)
                 false
  = (flat_map wrapped blocks, false).
Proof.
  induction 1 as [|[rs cs] blocks [Hr Hc] _ IH]; [reflexivity|].
  cbn [flat_map fst snd] in *. unfold wrapped at 1. cbn [fst snd].
  rewrite merged_content_app, merged_streamed.
  destruct (List.concat rs) eqn:Er; [easy|].
  destruct (List.concat cs) eqn:Ec; [easy|].
  cbn [str_truthy]. rewrite IH. now rewrite <- !app_assoc.
Qed.

(** C1 (amended).  With [SHOW_REASONING] the merger wraps each run of
    reasoning that an answer follows in [<think>] and [</think>]: the
    fragments of the run are concatenated as they come, nothing is put
    between them.  [{reasoning:a}, {reasoning:b}, {content:c}] reads
    [<think>\nab\n</think>\n\nc]; [{content:x}] alone reads [x]; one payload
    with reasoning [r] and content [a] reads [<think>\nr\n</think>\n\na],
    and the merger is closed afterwards in all three. *)
Theorem merge_marks_reasoning_runs {platform : Platform} :
  (forall blocks,
      Forall (fun b => List.concat (fst b) <> [] /\ List.concat (snd b) <> [])
             blocks ->
      merged_content true
        (flat_map (fun b => streamed (fst b) (snd b)) blocks) false
      = (flat_map wrapped blocks, false))
  /\ merged_content true
       [reasoning_delta (lit "a"); reasoning_delta (lit "b");
        content_delta (lit "c")] false
     = (lit "<think>" ++ [LF] ++ lit "ab" ++ [LF] ++ lit "</think>"
          ++ [LF; LF] ++ lit "c", false)
  /\ merged_content true [content_delta (lit "x")] false = (lit "x", false)
  /\ merged_content true [both_delta (lit "r") (lit "a")] false
     = (lit "<think>" ++ [LF] ++ lit "r" ++ [LF] ++ lit "</think>"
          ++ [LF; LF] ++ lit "a", false).
Proof.
  split; [exact merged_blocks|].
  repeat split; reflexivity.
Qed.

(** C1 as stated fails: no newline separates the fragments [a] and [b]. *)
Lemma reasoning_fragments_not_separated :
  fst (merged_content (platform := sample_platform) true
         [reasoning_delta (lit "a"); reasoning_delta (lit "b");
          content_delta (lit "c")] false)
  = lit "<think>" ++ [LF] ++ lit "ab" ++ [LF] ++ lit "</think>"
      ++ [LF; LF] ++ lit "c"
  /\ str_eqb
       (fst (merged_content (platform := sample_platform) true
               [reasoning_delta (lit "a"); reasoning_delta (lit "b");
                content_delta (lit "c")] false))
       (lit "<think>" ++ [LF] ++ lit "a" ++ [LF] ++ lit "b" ++ [LF]
          ++ lit "</think>" ++ [LF; LF] ++ lit "c")
     = false.
Proof. split; reflexivity. Qed.

Lemma merge_marks_reasoning_runs_witness :
  merged_content (platform := sample_platform) true
    (streamed [lit "a"; lit "b"] [lit "c"] ++ streamed [lit "d"] [lit "e"])
    false
  = (wrapped ([lit "a"; lit "b"], [lit "c"]) ++ wrapped ([lit "d"], [lit "e"]),
     false).
Proof.
  destruct (@merge_marks_reasoning_runs sample_platform) as [H _].
  rewrite <- (app_nil_r (streamed [lit "d"] [lit "e"])).
  rewrite <- (app_nil_r (wrapped ([lit "d"], [lit "e"]))).
  apply (H [([lit "a"; lit "b"], [lit "c"]); ([lit "d"], [lit "e"])]).
  repeat constructor; discriminate.
Defined.

(** C6 (amended).  For every pair whose answer is not empty (or whose
    reasoning is empty), streamed as the fragments of the reasoning followed
    by the fragments of the answer, the concatenated merged content equals
    the content the one-shot reshaper builds from the whole pair. *)
Theorem streamed_equals_one_shot {platform : Platform}
  (rs cs : list jsstring) :
  List.concat cs <> [] \/ List.concat rs = [] ->
  option_map choice_content
    (reshape_choice true (one_shot (List.concat rs) (List.concat cs)))
  = Some (JStr (fst (merged_content true (streamed rs cs) false))).
Proof.
  intros H. rewrite reshape_one_shot, merged_streamed.
  destruct (List.concat rs) as [|x r], (List.concat cs) as [|y c];
    cbn [str_truthy fst]; try reflexivity.
  destruct H as [H|H]; [now elim H | discriminate].
Qed.

Lemma streamed_equals_one_shot_witness :
  option_map choice_content
    (reshape_choice (platform := sample_platform) true
       (one_shot (List.concat [lit "a"; lit "b"]) (List.concat [lit "c"])))
  = Some (JStr (fst (merged_content (platform := sample_platform) true
                       (streamed [lit "a"; lit "b"] [lit "c"]) false))).
Proof.
  apply (@streamed_equals_one_shot sample_platform
           [lit "a"; lit "b"] [lit "c"]).
  left. discriminate.
Defined.

(** C6 as stated fails on a pair with an empty answer: the stream leaves the
    reasoning block open, the one-shot rule closes it. *)
Lemma unanswered_reasoning_stays_open :
  merged_content (platform := sample_platform) true
    (streamed [lit "r"] []) false
  = (lit "<think>" ++ [LF] ++ lit "r", true)
  /\ option_map choice_content
       (reshape_choice (platform := sample_platform) true
          (one_shot (lit "r") []))
     = Some (JStr (lit "<think>" ++ [LF] ++ lit "r" ++ [LF]
                     ++ lit "</think>" ++ [LF; LF]))
  /\ str_eqb (lit "<think>" ++ [LF] ++ lit "r")
             (lit "<think>" ++ [LF] ++ lit "r" ++ [LF] ++ lit "</think>"
                ++ [LF; LF])
     = false.
Proof. repeat split; reflexivity. Qed.

(** *** The upstream failure response and the upstream request *)

(** C9 (amended).  When the upstream status is not 2xx and is one a
    response with a body can carry (300 to 599, 304 apart), the caller gets
    a structured error whose HTTP status and code are the upstream status,
    and whose message is the upstream body text when that text is not empty,
    the fixed text [NIM API error - check if your API key is valid] when it
    is. *)
Theorem upstream_failure_carries_status {platform : Platform} :
  (forall r,
      upstream_ok r = false ->
      Response_accepts (upstream_status r) = true ->
      exists e,
        upstream_failure r = Some (Some e)
        /\ http_status e = upstream_status r
        /\ error_code e = upstream_status r
        /\ (upstream_text r <> [] -> error_message e = upstream_text r)
        /\ (upstream_text r = [] ->
            error_message e
            = lit "NIM API error - check if your API key is valid"))
  /\ (forall show thinking env key req body nimRequest reply text,
         request_json req = Ok body ->
         build_nim_request thinking body = Some nimRequest ->
         fetch_chat env key nimRequest = Ok reply ->
         (200 <=? chat_status reply) && (chat_status reply <=? 299) = false ->
         Response_accepts (chat_status reply) = true ->
         chat_text reply = Ok text ->
         chat_completions show thinking env key req
         = {| status := chat_status reply;
              response_headers := json_headers;
              body := ErrorBody
                        (Given (if str_truthy text then text
                                else lit "NIM API error - check if your API key is valid"))
                        (lit "api_error") (chat_status reply) |}).
Proof.
  split.
  - intros r Hok Hacc. unfold upstream_failure. rewrite Hok, Hacc.
    eexists. split; [reflexivity|]. split; [reflexivity|].
    split; [reflexivity|]. cbn [error_message]. split.
    + intros Hne. destruct (upstream_text r); [now elim Hne | reflexivity].
    + now intros ->.
  - intros show thinking env key req body nimRequest reply text
           Hbody Hbuild Hfetch Hok Hacc Htext.
    unfold chat_completions. rewrite Hbody, Hbuild, Hfetch, Hok, Htext.
    cbn [negb]. unfold upstream_failure, upstream_ok.
    cbn [upstream_status upstream_text]. now rewrite Hok, Hacc.
Qed.

Lemma upstream_failure_carries_status_witness :
  let reply := {| chat_status := 429; chat_text := Ok (lit "slow down");
                  chat_json := Throw (lit "Unexpected token");
                  chat_body := None |} in
  (exists e,
      upstream_failure
        {| upstream_status := 429; upstream_text := lit "slow down" |}
      = Some (Some e)
      /\ http_status e = 429 /\ error_code e = 429
      /\ error_message e = lit "slow down")
  /\ chat_completions (platform := sample_platform) true true
       (upstream_answering reply) (lit "nvapi-1") (chat_request (JObj []))
     = {| status := 429; response_headers := json_headers;
          body := ErrorBody (Given (lit "slow down")) (lit "api_error")
                            429 |}.
Proof.
  intros reply.
  destruct (@upstream_failure_carries_status sample_platform)
    as [Hfailure Hcaller].
  split.
  - destruct (Hfailure {| upstream_status := 429;
                          upstream_text := lit "slow down" |}
                       eq_refl eq_refl)
      as (e & He & Hs & Hc & Hm & _).
    exists e. split; [exact He|]. split; [exact Hs|]. split; [exact Hc|].
    apply Hm. discriminate.
  - exact (Hcaller true true (upstream_answering reply) (lit "nvapi-1")
             (chat_request (JObj [])) (JObj []) _ reply (lit "slow down")
             eq_refl eq_refl eq_refl eq_refl eq_refl eq_refl).
Defined.

(** C9 as stated fails on an empty upstream body: the message is the fixed
    text, not the (empty) body.  It also fails on a status that
    [new Response] refuses: for an upstream 304 the caller gets the 500 of
    line 297. *)
Lemma empty_upstream_body_is_replaced :
  upstream_failure {| upstream_status := 500; upstream_text := [] |}
  = Some (Some {| error_message :=
                    lit "NIM API error - check if your API key is valid";
                  error_type := lit "api_error";
                  error_code := 500; http_status := 500 |})
  /\ str_eqb (lit "NIM API error - check if your API key is valid") []
     = false
  /\ upstream_failure
       {| upstream_status := 304; upstream_text := lit "not modified" |}
     = Some None
  /\ status (chat_completions (platform := sample_platform) true true
               (upstream_answering
                  {| chat_status := 304;
                     chat_text := Ok (lit "not modified");
                     chat_json := Throw (lit "Unexpected token");
                     chat_body := None |})
               (lit "nvapi-1") (chat_request (JObj [])))
     = 500.
Proof. repeat split; reflexivity. Qed.

(** C10.  In the request sent upstream a missing or falsy [temperature] is
    [0.6] and a missing or falsy [max_tokens] is [9024]; a client's explicit
    [0] is falsy, so it is replaced as well. *)
Theorem falsy_sampling_settings_are_replaced (thinking : bool) (body : json)
  (req : nim_request) :
  build_nim_request thinking body = Some req ->
  (truthy (opt_member (lit "temperature") (Some body)) = false ->
   nim_temperature req = JNum 0.6%float)
  /\ (truthy (opt_member (lit "max_tokens") (Some body)) = false ->
      nim_max_tokens req = JNum 9024%float)
  /\ (opt_member (lit "temperature") (Some body) = Some (JNum 0%float) ->
      nim_temperature req = JNum 0.6%float)
  /\ (opt_member (lit "max_tokens") (Some body) = Some (JNum 0%float) ->
      nim_max_tokens req = JNum 9024%float).
Proof.
  intros Hreq.
  assert (Hfalsy : forall v d, truthy v = false -> js_or v d = d).
  { intros [j|] d Hv; unfold js_or; simpl in *;
      [now rewrite Hv | reflexivity]. }
  assert (Ht : nim_temperature req
               = js_or (opt_member (lit "temperature") (Some body))
                       (JNum 0.6%float))
    by (destruct body; try discriminate; now inversion Hreq).
  assert (Hm : nim_max_tokens req
               = js_or (opt_member (lit "max_tokens") (Some body))
                       (JNum 9024%float))
    by (destruct body; try discriminate; now inversion Hreq).
  rewrite Ht, Hm.
  split; [|split; [|split]]; intros H; apply Hfalsy;
    try assumption; now rewrite H.
Qed.

Lemma falsy_sampling_settings_are_replaced_witness :
  let body := JObj [(lit "temperature", JNum 0%float);
                    (lit "max_tokens", JNum 0%float)] in
  let req := {| nim_model := None; nim_messages := None;
                nim_temperature := JNum 0.6%float;
                nim_max_tokens := JNum 9024%float;
                nim_stream := JBool false; nim_extra_body := None |} in
  build_nim_request false body = Some req
  /\ nim_temperature req = JNum 0.6%float
  /\ nim_max_tokens req = JNum 9024%float.
Proof.
  intros body req. split; [reflexivity|].
  destruct (@falsy_sampling_settings_are_replaced false body req eq_refl)
    as (_ & _ & Ht & Hm).
  split; [apply Ht | apply Hm]; reflexivity.
Defined.

(** *** Terminal frames *)

(** C3, evaluated.  An upstream that ends with its own terminal frame, as
    the wire format prescribes, makes the client receive two: the one of
    line 179 and the one of line 166. *)
Example upstream_terminal_frame_is_doubled :
  pump (platform := sample_platform) attentive true
       [Chunk (bytes "data: [DONE]" ++ NL ++ NL)]
  = (Ok tt, [Written DONE_FRAME; Written DONE_FRAME; Closed])
  /\ count delivers_terminal
       (snd (pump (platform := sample_platform) attentive true
               [Chunk (bytes "data: [DONE]" ++ NL ++ NL)])) = 2%nat
  /\ count delivers_terminal
       (snd (pump (platform := sample_platform) attentive true
               [Chunk (bytes "data: [DONE]")])) = 1%nat
  /\ count delivers_terminal
       (snd (pump (platform := sample_platform) attentive true [])) = 1%nat.
Proof. repeat split; reflexivity. Qed.

(** *** The rewritten payload *)

Lemma remove_set_same k v fs :
  remove_field k (set_field k v fs) = remove_field k fs.
Proof.
  induction fs as [|[k' v'] fs IH]; simpl.
  - now rewrite str_eqb_refl.
  - destruct (str_eqb k k') eqn:E; simpl.
    + now rewrite str_eqb_refl.
    + now rewrite E, IH.
Qed.

Lemma same_outside_delta_refl data : same_outside_delta data data.
Proof. now repeat split. Qed.

(** Where a payload keeps its delta. *)
Lemma delta_of_inv (data d : json) :
  delta_of data = Some (Some d) ->
  exists top cf,
    data = JObj top /\ lookup k_delta cf = Some d
    /\ ((exists rest, lookup k_choices top = Some (JArr (JObj cf :: rest)))
        \/ (exists chs, lookup k_choices top = Some (JObj chs)
                        /\ lookup (lit "0") chs = Some (JObj cf))).
Proof.
  unfold delta_of, member, bind.
  destruct data as [| | | | |top]; try discriminate.
  destruct (lookup k_choices top) as [choices|] eqn:Ech; [|discriminate].
  intros H. injection H as H.
  destruct choices as [| | |s|items|chs]; try discriminate.
  - destruct s; discriminate.
  - destruct items as [|c0 rest]; [discriminate|].
    destruct c0 as [| | | | |cf]; try discriminate.
    exists top, cf. repeat split; [exact H|]. left. now exists rest.
  - cbn [opt_index0] in H.
    destruct (lookup (lit "0") chs) as [c0|] eqn:E0; [|discriminate].
    destruct c0 as [| | | | |cf]; try discriminate.
    exists top, cf. repeat split; [exact H|]. right. now exists chs.
Qed.

Lemma with_delta_ok (f : json -> throws json) (data d d' : json) :
  delta_of data = Some (Some d) -> f d = Some d' ->
  exists data',
    with_delta f data = Some data'
    /\ delta_of data' = Some (Some d')
    /\ same_outside_delta data data'.
Proof.
  intros Hd Hf.
  apply delta_of_inv in Hd
    as (top & cf & -> & Hcf & [[rest Hch]|[chs [Hch H0]]]).
  - exists (JObj (set_field k_choices
                    (JArr (JObj (set_field k_delta d' cf) :: rest)) top)).
    split; [|split].
    + unfold with_delta. rewrite Hch, Hcf. unfold bind. now rewrite Hf.
    + unfold delta_of, member, bind. rewrite lookup_set_same.
      cbn [opt_index0 opt_member]. now rewrite lookup_set_same.
    + repeat split.
      * intros k Hk. cbn [opt_member]. now apply lookup_set_other.
      * intros k Hk. cbn [opt_member]. rewrite lookup_set_same, Hch.
        cbn [opt_index0]. now apply lookup_set_other.
      * unfold other_choices. cbn [opt_member].
        now rewrite lookup_set_same, Hch.
  - exists (JObj (set_field k_choices
                    (JObj (set_field (lit "0")
                             (JObj (set_field k_delta d' cf)) chs)) top)).
    split; [|split].
    + unfold with_delta. rewrite Hch, H0, Hcf. unfold bind. now rewrite Hf.
    + unfold delta_of, member, bind. rewrite lookup_set_same.
      cbn [opt_index0 opt_member]. rewrite lookup_set_same.
      cbn [opt_member]. now rewrite lookup_set_same.
    + repeat split.
      * intros k Hk. cbn [opt_member]. now apply lookup_set_other.
      * intros k Hk. cbn [opt_member]. rewrite lookup_set_same, Hch.
        cbn [opt_index0]. rewrite lookup_set_same, H0.
        now apply lookup_set_other.
      * unfold other_choices. cbn [opt_member].
        rewrite lookup_set_same, Hch. now rewrite remove_set_same.
Qed.

Lemma with_delta_throws (f : json -> throws json) (data d : json) :
  delta_of data = Some (Some d) -> f d = None -> with_delta f data = None.
Proof.
  intros Hd Hf.
  apply delta_of_inv in Hd
    as (top & cf & -> & Hcf & [[rest Hch]|[chs [Hch H0]]]);
    unfold with_delta; rewrite Hch, ?H0, Hcf; unfold bind; now rewrite Hf.
Qed.

(** The delta object after [d.content = v; delete d.reasoning_content]. *)
Lemma rewritten_fields (v : json) (fs : list (jsstring * json)) :
  let fs' := remove_field k_reasoning (set_field k_content v fs) in
  lookup k_content fs' = Some v
  /\ lookup k_reasoning fs' = None
  /\ (forall k, k <> k_content -> k <> k_reasoning ->
                lookup k fs' = lookup k fs).
Proof.
  intros fs'. unfold fs'. repeat split.
  - rewrite lookup_remove_other by discriminate. apply lookup_set_same.
  - apply lookup_remove_same.
  - intros k Hc Hr. rewrite lookup_remove_other by assumption.
    now apply lookup_set_other.
Qed.

Lemma as_truthy_some (v : jsval) (j : json) :
  as_truthy v = Some j -> v = Some j /\ json_truthy j = true.
Proof.
  destruct v as [x|]; simpl; [|discriminate].
  destruct (json_truthy x) eqn:E; [|discriminate].
  intros H. injection H as <-. now split.
Qed.

Lemma as_truthy_none (v : jsval) : as_truthy v = None <-> truthy v = false.
Proof.
  destruct v as [x|]; simpl; [|easy].
  destruct (json_truthy x); easy.
Qed.

Lemma truthy_app_l (a b : jsstring) :
  a <> [] -> json_truthy (JStr (a ++ b)) = true.
Proof. destruct a; [easy | reflexivity]. Qed.

Lemma truthy_app_r (a b : jsstring) :
  b <> [] -> json_truthy (JStr (a ++ b)) = true.
Proof. destruct a, b; easy. Qed.

Section MergerFrame.

Context {platform : Platform}.

Lemma js_add_to_string_l (a : jsstring) (v : json) :
  js_add (JStr a) v =
  (pb <- to_primitive v ;; sb <- to_string pb ;; Some (JStr (a ++ sb))).
Proof.
  unfold js_add. cbn [to_primitive bind].
  destruct (to_primitive v) as [pb|]; [|reflexivity].
  destruct pb; reflexivity.
Qed.

Lemma js_add_to_string_r (b : jsstring) (v : json) :
  js_add v (JStr b) =
  (pa <- to_primitive v ;; sa <- to_string pa ;; Some (JStr (sa ++ b))).
Proof.
  unfold js_add.
  destruct (to_primitive v) as [pa|]; [|reflexivity].
  destruct pa; reflexivity.
Qed.

Lemma js_add_str_l (a : jsstring) (v x : json) :
  js_add (JStr a) v = Some x -> exists b, x = JStr (a ++ b).
Proof.
  rewrite js_add_to_string_l. unfold bind.
  destruct (to_primitive v) as [pb|]; [|discriminate].
  destruct (to_string pb) as [sb|]; [|discriminate].
  intros E. injection E as <-. now exists sb.
Qed.

Lemma js_add_str_r (b : jsstring) (v x : json) :
  js_add v (JStr b) = Some x -> exists a, x = JStr (a ++ b).
Proof.
  rewrite js_add_to_string_r. unfold bind.
  destruct (to_primitive v) as [pa|]; [|discriminate].
  destruct (to_string pa) as [sa|]; [|discriminate].
  intros E. injection E as <-. now exists sa.
Qed.

Lemma js_add_strings (a b : jsstring) :
  js_add (JStr a) (JStr b) = Some (JStr (a ++ b)).
Proof. reflexivity. Qed.

Lemma think_open_not_empty : THINK_OPEN <> [].
Proof. discriminate. Qed.

Lemma think_close_not_empty : THINK_CLOSE <> [].
Proof. discriminate. Qed.

(** Nothing to merge: the merged content is the empty string and the state
    stays. *)
Lemma combine_falsy (r c : jsval) (started : bool) :
  truthy r = false -> truthy c = false ->
  combine r c started = (Some (JStr []), started).
Proof.
  intros Hr Hc. apply as_truthy_none in Hr, Hc.
  unfold combine. now rewrite Hr, Hc.
Qed.

(** Reasoning of any kind, or a non-empty answer text, makes the merged
    content truthy. *)
Lemma combine_truthy (r c : jsval) (started started' : bool) (cc : json) :
  combine r c started = (Some cc, started') ->
  truthy r = true \/ (exists s, c = Some (JStr s) /\ s <> []) ->
  json_truthy cc = true.
Proof.
  unfold combine. intros Hcomb Hin.
  destruct (as_truthy r) as [rv|] eqn:Er.
  - apply as_truthy_some in Er as [-> Hrv].
    assert (Hfirst : forall (c1 : json) (st : bool),
      json_truthy c1 = true ->
      (forall t x, js_add c1 (JStr t) = Some x -> t <> [] ->
                   json_truthy x = true) ->
      match as_truthy c with
      | Some cv =>
          if st
          then match (t <- js_add (JStr THINK_CLOSE) cv ;; js_add c1 t) with
               | Some c' => (Some c', false)
               | None => (None, st)
               end
          else match js_add c1 cv with
               | Some c' => (Some c', st)
               | None => (None, st)
               end
      | None => (Some c1, st)
      end = (Some cc, started') ->
      st = true -> json_truthy cc = true).
    { intros c1 st Hc1 Hadd Hm Hst. subst st.
      destruct (as_truthy c) as [cv|].
      - unfold bind in Hm.
        destruct (js_add (JStr THINK_CLOSE) cv) as [t|] eqn:Et;
          [|discriminate].
        destruct (js_add c1 t) as [c'|] eqn:Ec'; [|discriminate].
        injection Hm as <- _.
        apply js_add_str_l in Et as [b ->].
        eapply Hadd; [exact Ec'|]. now destruct THINK_CLOSE eqn:E.
      - now injection Hm as <- _. }
    destruct started; cbn [negb] in Hcomb.
    + eapply Hfirst; [exact Hrv| |exact Hcomb|reflexivity].
      intros t x Hx Ht. apply js_add_str_r in Hx as [a ->].
      now apply truthy_app_r.
    + destruct (js_add (JStr THINK_OPEN) rv) as [c1|] eqn:E1;
        [|discriminate].
      apply js_add_str_l in E1 as [b ->].
      eapply Hfirst; [| |exact Hcomb|reflexivity].
      * apply truthy_app_l, think_open_not_empty.
      * intros t x Hx Ht. apply js_add_str_r in Hx as [a ->].
        now apply truthy_app_r.
  - apply as_truthy_none in Er.
    destruct Hin as [Hr|(s & -> & Hs)]; [congruence|].
    destruct s as [|y s]; [easy|].
    cbn [as_truthy json_truthy str_truthy] in Hcomb.
    destruct started.
    + now injection Hcomb as <- _.
    + now injection Hcomb as <- _.
Qed.

End MergerFrame.

Section MergerContract.

Context {platform : Platform}.

Lemma merge_object_delta (show started : bool) (data : json)
  (fs : list (jsstring * json)) :
  delta_of data = Some (Some (JObj fs)) ->
  merge show started data =
  let rewrite v :=
    with_delta (fun d0 => d1 <- assign k_content v d0 ;;
                          Some (delete k_reasoning d1)) data in
  if show then
    match combine (lookup k_reasoning fs) (lookup k_content fs) started with
    | (None, st) => (None, st)
    | (Some cc, st) =>
        if json_truthy cc then (rewrite cc, st) else (Some data, st)
    end
  else (rewrite (js_or (lookup k_content fs) (JStr [])), started).
Proof.
  intros Hd. unfold merge. rewrite Hd. reflexivity.
Qed.

Lemma merge_hidden_keeps_state (started : bool) (data : json) :
  snd (merge false started data) = started.
Proof.
  unfold merge. destruct (delta_of data) as [delta|]; [|reflexivity].
  now destruct (as_truthy delta).
Qed.

(** The payload after the rewriting of an object delta. *)
Lemma rewrite_object_delta (v : json) (data : json)
  (fs : list (jsstring * json)) :
  delta_of data = Some (Some (JObj fs)) ->
  exists data',
    with_delta (fun d0 => d1 <- assign k_content v d0 ;;
                          Some (delete k_reasoning d1)) data = Some data'
    /\ delta_of data'
       = Some (Some (JObj (remove_field k_reasoning
                             (set_field k_content v fs))))
    /\ same_outside_delta data data'.
Proof.
  intros Hd. eapply with_delta_ok; [exact Hd | reflexivity].
Qed.

(** C5.  Without [SHOW_REASONING] the delta of every payload gets as its
    content the answer when there is one and the empty string otherwise, and
    loses its reasoning field; nothing else changes, no marker is added, and
    [reasoningStarted] is never assigned. *)
Theorem hidden_reasoning_is_dropped (started : bool) (data : json) :
  snd (merge false started data) = started
  /\ forall fs,
      delta_of data = Some (Some (JObj fs)) ->
      exists data' fs',
        merge false started data = (Some data', started)
        /\ delta_of data' = Some (Some (JObj fs'))
        /\ lookup k_content fs'
           = Some (js_or (lookup k_content fs) (JStr []))
        /\ (forall s, lookup k_content fs = Some (JStr s) ->
                      lookup k_content fs' = Some (JStr s))
        /\ (lookup k_content fs = None ->
            lookup k_content fs' = Some (JStr []))
        /\ lookup k_reasoning fs' = None
        /\ (forall k, k <> k_content -> k <> k_reasoning ->
                      lookup k fs' = lookup k fs)
        /\ same_outside_delta data data'.
Proof.
  split; [apply merge_hidden_keeps_state|].
  intros fs Hd.
  destruct (@rewrite_object_delta (js_or (lookup k_content fs) (JStr []))
              data fs Hd)
    as (data' & Hw & Hd' & Hframe).
  destruct (@rewritten_fields (js_or (lookup k_content fs) (JStr [])) fs)
    as (Hc & Hr & Hother).
  exists data', (remove_field k_reasoning
                   (set_field k_content
                      (js_or (lookup k_content fs) (JStr [])) fs)).
  rewrite (@merge_object_delta false started data fs Hd). cbv beta zeta.
  rewrite Hw.
  split; [reflexivity|]. split; [exact Hd'|]. split; [exact Hc|].
  split; [intros s Hs; rewrite Hc, Hs; now destruct s|].
  split; [intros Hs; now rewrite Hc, Hs|].
  split; [exact Hr|]. split; [exact Hother | exact Hframe].
Qed.

(** C7 (amended).  The merger leaves every field of the payload other than
    the content and the reasoning of its delta as it was.  The reasoning
    field is removed whenever [SHOW_REASONING] is false, or the delta carries
    reasoning or a non-empty answer text; with [SHOW_REASONING] and neither,
    the payload goes out unchanged, reasoning field included. *)
Theorem rewriting_touches_content_only (show started : bool) (data : json)
  (fs : list (jsstring * json)) (data' : json) (started' : bool) :
  delta_of data = Some (Some (JObj fs)) ->
  merge show started data = (Some data', started') ->
  exists fs',
    delta_of data' = Some (Some (JObj fs'))
    /\ (forall k, k <> k_content -> k <> k_reasoning ->
                  lookup k fs' = lookup k fs)
    /\ same_outside_delta data data'
    /\ (show = false -> lookup k_reasoning fs' = None)
    /\ (show = true ->
        truthy (lookup k_reasoning fs) = true
        \/ (exists s, lookup k_content fs = Some (JStr s) /\ s <> []) ->
        lookup k_reasoning fs' = None
        /\ exists v, lookup k_content fs' = Some v /\ json_truthy v = true)
    /\ (show = true ->
        truthy (lookup k_reasoning fs) = false ->
        truthy (lookup k_content fs) = false ->
        data' = data /\ started' = started).
Proof.
  intros Hd Hm. rewrite (@merge_object_delta show started data fs Hd) in Hm.
  cbv beta zeta in Hm. destruct show.
  - destruct (combine (lookup k_reasoning fs) (lookup k_content fs) started)
      as [[cc|] st] eqn:Ec; [|discriminate].
    destruct (json_truthy cc) eqn:Ecc.
    + destruct (@rewrite_object_delta cc data fs Hd)
        as (d2 & Hw & Hd2 & Hframe).
      rewrite Hw in Hm. injection Hm as <- <-.
      destruct (@rewritten_fields cc fs) as (Hc & Hr & Hother).
      eexists. split; [exact Hd2|]. split; [exact Hother|].
      split; [exact Hframe|]. split; [discriminate|].
      split; [intros _ _; split; [exact Hr | now exists cc]|].
      intros _ Hr0 Hc0. rewrite (@combine_falsy _ _ _ _ Hr0 Hc0) in Ec.
      injection Ec as <- _. discriminate.
    + injection Hm as <- <-. exists fs. split; [exact Hd|].
      split; [reflexivity|]. split; [apply same_outside_delta_refl|].
      split; [discriminate|].
      split.
      * intros _ Hin. rewrite (@combine_truthy _ _ _ _ _ _ Ec Hin) in Ecc.
        discriminate.
      * intros _ Hr0 Hc0. rewrite (@combine_falsy _ _ _ _ Hr0 Hc0) in Ec.
        now injection Ec as _ <-.
  - destruct (@rewrite_object_delta (js_or (lookup k_content fs) (JStr []))
                data fs Hd)
      as (d2 & Hw & Hd2 & Hframe).
    rewrite Hw in Hm. injection Hm as <- <-.
    destruct (@rewritten_fields (js_or (lookup k_content fs) (JStr [])) fs)
      as (Hc & Hr & Hother).
    eexists. split; [exact Hd2|]. split; [exact Hother|].
    split; [exact Hframe|]. split; [intros _; exact Hr|].
    split; discriminate.
Qed.

End MergerContract.

Lemma hidden_reasoning_is_dropped_witness :
  exists data' fs',
    merge (platform := sample_platform) false true
          (both_delta (lit "r") (lit "a")) = (Some data', true)
    /\ delta_of data' = Some (Some (JObj fs'))
    /\ lookup k_content fs' = Some (JStr (lit "a"))
    /\ lookup k_reasoning fs' = None.
Proof.
  destruct (@hidden_reasoning_is_dropped sample_platform true
              (both_delta (lit "r") (lit "a"))) as [_ H].
  destruct (H [(k_reasoning, JStr (lit "r")); (k_content, JStr (lit "a"))]
              eq_refl)
    as (data' & fs' & Hm & Hd & Hc & _ & _ & Hr & _).
  exists data', fs'. split; [exact Hm|]. split; [exact Hd|].
  split; [exact Hc | exact Hr].
Defined.

Lemma rewriting_touches_content_only_witness :
  let fs := [(lit "role", JStr (lit "assistant"));
             (k_reasoning, JStr (lit "r")); (k_content, JStr (lit "a"))] in
  let out := lit "<think>" ++ [LF] ++ lit "r" ++ [LF] ++ lit "</think>"
               ++ [LF; LF] ++ lit "a" in
  merge (platform := sample_platform) true false (delta_payload fs)
  = (Some (delta_payload [(lit "role", JStr (lit "assistant"));
                          (k_content, JStr out)]), false)
  /\ exists fs',
      delta_of (delta_payload [(lit "role", JStr (lit "assistant"));
                               (k_content, JStr out)])
      = Some (Some (JObj fs'))
      /\ lookup (lit "role") fs' = lookup (lit "role") fs
      /\ lookup k_reasoning fs' = None.
Proof.
  intros fs out. split; [reflexivity|].
  destruct (@rewriting_touches_content_only sample_platform true false
              (delta_payload fs) fs
              (delta_payload [(lit "role", JStr (lit "assistant"));
                              (k_content, JStr out)]) false
              eq_refl eq_refl)
    as (fs' & Hd & Hother & _ & _ & Hshown & _).
  exists fs'. split; [exact Hd|]. split.
  - apply Hother; discriminate.
  - apply Hshown; [reflexivity|]. left. reflexivity.
Defined.

(** C7 as stated fails: with [SHOW_REASONING], a delta that carries no text
    goes out as it came, its reasoning field still there. *)
Lemma idle_delta_keeps_reasoning_field :
  merge (platform := sample_platform) true false idle_delta
  = (Some idle_delta, false)
  /\ option_map (opt_member k_reasoning) (delta_of idle_delta)
     = Some (Some JNull)
  /\ merge (platform := sample_platform) true false empty_reasoning_delta
     = (Some empty_reasoning_delta, false)
  /\ option_map (opt_member k_reasoning) (delta_of empty_reasoning_delta)
     = Some (Some (JStr [])).
Proof. repeat split; reflexivity. Qed.

(** *** Complete lines *)

Section Lines.

Context {platform : Platform}.

Lemma write_accepted (client : downstream) (s : jsstring) (tr : list event) :
  client (List.length tr) = None ->
  write client s tr = (Ok tt, tr ++ [Written s]).
Proof. intros H. unfold write. now rewrite H. Qed.

Lemma process_line_accepted (client : downstream) (show : bool)
  (line : jsstring) (started : bool) (tr : list event) :
  client (List.length tr) = None ->
  process_line client show line started tr =
  if is_data_line line
  then (Ok (snd (rewritten_line show line started)),
        tr ++ [Written (fst (rewritten_line show line started))])
  else (Ok started, tr).
Proof.
  intros Hc. unfold process_line, is_data_line, rewritten_line.
  destruct (is_blank line); [reflexivity|]. cbn [negb andb].
  destruct (startsWith DATA_PREFIX line); [|reflexivity].
  destruct (includes DONE_TOKEN line).
  - unfold io_bind. now rewrite write_accepted.
  - destruct (JSON_parse (slice 6 line)) as [data|].
    + destruct (merge show started data) as [[data'|] st];
        unfold io_bind, try_catch; now rewrite write_accepted.
    + unfold io_bind. now rewrite write_accepted.
Qed.

Lemma for_lines_attentive (show : bool) (lines : list jsstring)
  (started : bool) (tr : list event) :
  exists started' frames,
    for_lines attentive show lines started tr
    = (Ok started', tr ++ map Written frames)
    /\ List.length frames = List.length (filter is_data_line lines).
Proof.
  revert started tr. induction lines as [|line lines IH]; intros started tr.
  - exists started, []. now rewrite app_nil_r.
  - cbn [for_lines]. unfold io_bind.
    rewrite process_line_accepted by reflexivity. cbn [filter].
    destruct (is_data_line line).
    + destruct (IH (snd (rewritten_line show line started))
                   (tr ++ [Written (fst (rewritten_line show line started))]))
        as (st' & frames & Hrun & Hlen).
      exists st', (fst (rewritten_line show line started) :: frames).
      rewrite Hrun. cbn [map List.length]. rewrite <- app_assoc.
      now rewrite Hlen.
    + apply IH.
Qed.


End Lines.



(** *** The parser and the chunk boundaries *)

Lemma split_nl_not_nil (s : jsstring) : split_nl s <> [].
Proof.
  induction s as [|c s IH]; simpl; [discriminate|].
  destruct (c =? LF); [discriminate|].
  destruct (split_nl s); discriminate.
Qed.

Lemma last_app_not_nil {A : Type} (l l' : list A) (d : A) :
  l' <> [] -> last (l ++ l') d = last l' d.
Proof.
  intros H. induction l as [|x l IH]; [reflexivity|].
  simpl. destruct (l ++ l') eqn:E; [|exact IH].
  apply app_eq_nil in E as [_ E]. contradiction.
Qed.

(** Splitting a text cut in two: the lines of the first part but the last,
    then the lines of that last one followed by the second part. *)
Lemma split_nl_app (x y : jsstring) :
  split_nl (x ++ y)
  = removelast (split_nl x) ++ split_nl (last (split_nl x) [] ++ y).
Proof.
  induction x as [|c x IH]; [reflexivity|].
  cbn [app split_nl]. destruct (c =? LF) eqn:Ec.
  - rewrite IH. pose proof (split_nl_not_nil x) as Hx.
    destruct (split_nl x) as [|l ls]; [contradiction|]. reflexivity.
  - rewrite IH. pose proof (split_nl_not_nil x) as Hx.
    destruct (split_nl x) as [|l ls]; [contradiction|].
    destruct ls as [|l' ls].
    + cbn [removelast last app split_nl]. now rewrite Ec.
    + reflexivity.
Qed.

Lemma has_newline_cons (c : code_unit) (s : jsstring) :
  has_newline (c :: s) = (c =? LF) || has_newline s.
Proof. unfold has_newline. cbn [existsb]. now rewrite N.eqb_sym. Qed.

Lemma split_nl_lines (s : jsstring) :
  Forall (fun line => has_newline line = false) (split_nl s).
Proof.
  induction s as [|c s IH]; cbn [split_nl]; [now constructor|].
  destruct (c =? LF) eqn:Ec; [now constructor|].
  pose proof (split_nl_not_nil s) as Hne.
  destruct (split_nl s) as [|l ls]; [contradiction|].
  inversion IH as [|? ? Hl Hls]; subst. constructor; [|assumption].
  now rewrite has_newline_cons, Ec.
Qed.

Lemma split_nl_one_line (s : jsstring) :
  has_newline s = false -> split_nl s = [s].
Proof.
  induction s as [|c s IH]; [reflexivity|].
  rewrite has_newline_cons. cbn [split_nl].
  destruct (c =? LF); [discriminate|].
  cbn [orb]. intros H. now rewrite IH.
Qed.

Lemma feed_buffer_one_line (buffer text : jsstring) :
  has_newline (snd (feed buffer text)) = false.
Proof.
  unfold feed. cbn [snd].
  pose proof (split_nl_lines (buffer ++ text)) as Hall.
  pose proof (split_nl_not_nil (buffer ++ text)) as Hne.
  destruct (split_nl (buffer ++ text)) as [|l ls]; [contradiction|].
  rewrite Forall_forall in Hall. apply Hall.
  destruct (@exists_last _ (l :: ls) Hne) as (front & z & E).
  rewrite E, last_last. apply in_or_app. right. now left.
Qed.

Lemma feed_app (buffer text text' : jsstring) :
  feed buffer (text ++ text')
  = (fst (feed buffer text) ++ fst (feed (snd (feed buffer text)) text'),
     snd (feed (snd (feed buffer text)) text')).
Proof.
  unfold feed. cbn [fst snd]. rewrite app_assoc, split_nl_app.
  pose proof (split_nl_not_nil (last (split_nl (buffer ++ text)) [] ++ text'))
    as Hne.
  now rewrite removelast_app, last_app_not_nil.
Qed.

Lemma feed_nothing (buffer : jsstring) :
  has_newline buffer = false -> feed buffer [] = ([], buffer).
Proof.
  intros H. unfold feed. rewrite app_nil_r, split_nl_one_line by assumption.
  reflexivity.
Qed.

Section Parser.

Context {platform : Platform}.

Lemma feed_all_feed (chunks : list (list byte)) (buffer : jsstring)
  (dec : decoder) :
  has_newline buffer = false ->
  feed_all chunks buffer dec = feed buffer (decode_all chunks dec).
Proof.
  revert buffer dec. induction chunks as [|v rest IH]; intros buffer dec Hb.
  - cbn [feed_all decode_all]. now rewrite feed_nothing.
  - cbn [feed_all decode_all]. destruct (decode dec v) as [dec' text].
    rewrite feed_app. destruct (feed buffer text) as [lines buffer'] eqn:Ef.
    cbn [fst snd].
    assert (Hb' : has_newline buffer' = false).
    { pose proof (feed_buffer_one_line buffer text) as H.
      now rewrite Ef in H. }
    rewrite (IH buffer' dec' Hb').
    now destruct (feed buffer' (decode_all rest dec')).
Qed.

Lemma decode_all_concat (chunks : list (list byte)) (dec : decoder) :
  streaming_decoder platform ->
  decode_all chunks dec = snd (decode dec (List.concat chunks)).
Proof.
  intros [Hnil Happ]. revert dec.
  induction chunks as [|v rest IH]; intros dec.
  - cbn [decode_all List.concat]. now rewrite Hnil.
  - cbn [decode_all List.concat]. rewrite Happ.
    destruct (decode dec v) as [d1 t1]. rewrite IH.
    now destruct (decode d1 (List.concat rest)).
Qed.

Lemma feed_all_buffer_one_line (chunks : list (list byte)) :
  has_newline (snd (feed_all chunks [] new_TextDecoder)) = false.
Proof.
  rewrite feed_all_feed by reflexivity. apply feed_buffer_one_line.
Qed.

Lemma io_bind_assoc {A B C : Type} (m : io A) (k : A -> io B)
  (h : B -> io C) (tr : list event) :
  io_bind (io_bind m k) h tr = io_bind m (fun a => io_bind (k a) h) tr.
Proof. unfold io_bind. now destruct (m tr) as [[a|e] tr']. Qed.

Lemma io_bind_ext {A B : Type} (m : io A) (k k' : A -> io B)
  (tr : list event) :
  (forall a tr', k a tr' = k' a tr') -> io_bind m k tr = io_bind m k' tr.
Proof.
  intros H. unfold io_bind. destruct (m tr) as [[a|e] tr']; [apply H|easy].
Qed.

Lemma io_bind_ext_l {A B : Type} (m m' : io A) (k : A -> io B)
  (tr : list event) :
  (forall tr', m tr' = m' tr') -> io_bind m k tr = io_bind m' k tr.
Proof. intros H. unfold io_bind. now rewrite H. Qed.

Lemma for_lines_app (client : downstream) (show : bool)
  (xs ys : list jsstring) (started : bool) (tr : list event) :
  for_lines client show (xs ++ ys) started tr
  = io_bind (for_lines client show xs started)
            (fun st => for_lines client show ys st) tr.
Proof.
  revert started tr. induction xs as [|x xs IH]; intros started tr.
  - reflexivity.
  - cbn [app for_lines]. rewrite io_bind_assoc.
    apply io_bind_ext. intros st tr'. apply IH.
Qed.

(** Reading chunks that all arrive: the loop runs the lines of the parser
    in order, then the [done] branch on what is left. *)
Lemma loop_chunks (client : downstream) (show : bool)
  (chunks : list (list byte)) (buffer : jsstring) (dec : decoder)
  (started : bool) (tr : list event) :
  loop client show (map Chunk chunks) buffer dec started tr
  = io_bind (for_lines client show (fst (feed_all chunks buffer dec)) started)
            (fun _ => finish client (snd (feed_all chunks buffer dec))) tr.
Proof.
  revert buffer dec started tr.
  induction chunks as [|v rest IH]; intros buffer dec started tr.
  - reflexivity.
  - cbn [map loop feed_all]. destruct (decode dec v) as [dec' text].
    destruct (feed buffer text) as [lines buffer'].
    destruct (feed_all rest buffer' dec') as [more final] eqn:Efa.
    cbn [fst snd].
    symmetry.
    etransitivity; [apply io_bind_ext_l; intros; apply for_lines_app|].
    rewrite io_bind_assoc.
    apply io_bind_ext. intros st tr'. rewrite IH, Efa. reflexivity.
Qed.

End Parser.

(** C2.  When the decoder is a streaming one, two sequences of chunks with
    the same bytes give the same complete lines in the same order and the
    same rest, hence the same exchange for any client; and the buffer never
    holds a newline: it is at most the one line still incomplete. *)
Theorem parser_ignores_chunk_boundaries {platform : Platform}
  (chunks1 chunks2 : list (list byte)) :
  streaming_decoder platform ->
  List.concat chunks1 = List.concat chunks2 ->
  feed_all chunks1 [] new_TextDecoder = feed_all chunks2 [] new_TextDecoder
  /\ (forall client show,
         pump client show (map Chunk chunks1)
         = pump client show (map Chunk chunks2))
  /\ (forall chunks,
         has_newline (snd (feed_all chunks [] new_TextDecoder)) = false).
Proof.
  intros Hdec Hcat.
  assert (Hfeed : feed_all chunks1 [] new_TextDecoder
                  = feed_all chunks2 [] new_TextDecoder).
  { rewrite !feed_all_feed by reflexivity.
    now rewrite !decode_all_concat, Hcat by assumption. }
  split; [exact Hfeed|]. split; [|apply feed_all_buffer_one_line].
  intros client show. unfold pump, try_finally, try_catch.
  now rewrite !loop_chunks, Hfeed.
Qed.

Lemma ascii_decode_streaming : streaming_decoder sample_platform.
Proof.
  split; [reflexivity|].
  intros d a b. cbn. unfold ascii_decode. now rewrite map_app.
Qed.

Lemma parser_ignores_chunk_boundaries_witness :
  let cut := [bytes "data: x" ++ NL ++ bytes "da";
              bytes "ta: [DONE]" ++ NL] in
  let whole := [bytes "data: x" ++ NL ++ bytes "data: [DONE]" ++ NL] in
  feed_all (platform := sample_platform) cut [] tt
  = ([lit "data: x"; lit "data: [DONE]"], [])
  /\ feed_all (platform := sample_platform) cut [] tt
     = feed_all (platform := sample_platform) whole [] tt
  /\ pump (platform := sample_platform) attentive true (map Chunk cut)
     = pump (platform := sample_platform) attentive true (map Chunk whole).
Proof.
  intros cut whole. split; [reflexivity|].
  destruct (@parser_ignores_chunk_boundaries sample_platform cut whole
              ascii_decode_streaming eq_refl) as (Hfeed & Hpump & _).
  split; [exact Hfeed | apply Hpump].
Defined.

(** *** The exchange as a whole *)

Lemma count_app (p : event -> bool) (a b : list event) :
  count p (a ++ b) = (count p a + count p b)%nat.
Proof. unfold count. now rewrite filter_app, length_app. Qed.

Create HintDb pump_steps.

Lemma adds_ret {A : Type} (a : A) : adds_writes (ret a).
Proof. intros tr. exists []. now rewrite app_nil_r. Qed.

Lemma adds_throw {A : Type} (e : jsstring) : adds_writes (@throw A e).
Proof. intros tr. exists []. now rewrite app_nil_r. Qed.

Lemma adds_write (client : downstream) (s : jsstring) :
  adds_writes (write client s).
Proof.
  intros tr. unfold write. destruct (client (List.length tr)).
  - now exists [WriteRejected s].
  - now exists [Written s].
Qed.

Lemma adds_bind {A B : Type} (m : io A) (k : A -> io B) :
  adds_writes m -> (forall a, adds_writes (k a)) -> adds_writes (io_bind m k).
Proof.
  intros Hm Hk tr. unfold io_bind. destruct (Hm tr) as (a1 & E1 & C1).
  destruct (m tr) as [[a|e] tr']; cbn [snd] in *; subst tr'.
  - destruct (Hk a (tr ++ a1)) as (a2 & E2 & C2). exists (a1 ++ a2).
    now rewrite E2, app_assoc, count_app, C1, C2.
  - now exists a1.
Qed.

Lemma adds_try {A : Type} (m : io A) (h : jsstring -> io A) :
  adds_writes m -> (forall e, adds_writes (h e)) ->
  adds_writes (try_catch m h).
Proof.
  intros Hm Hh tr. unfold try_catch. destruct (Hm tr) as (a1 & E1 & C1).
  destruct (m tr) as [[a|e] tr']; cbn [snd] in *; subst tr'.
  - now exists a1.
  - destruct (Hh e (tr ++ a1)) as (a2 & E2 & C2). exists (a1 ++ a2).
    now rewrite E2, app_assoc, count_app, C1, C2.
Qed.

#[local] Hint Resolve adds_ret adds_throw adds_write adds_bind adds_try
  : pump_steps.

Section WriterInvariant.

Variable client : downstream.
Hypothesis client_sticky : sticky client.

Lemma keeps_ret {A : Type} (a : A) : keeps_writer client (ret a).
Proof. now intros tr H. Qed.

Lemma keeps_throw {A : Type} (e : jsstring) :
  keeps_writer client (@throw A e).
Proof. now intros tr H. Qed.

Lemma rejected_snoc_written (tr : list event) (s : jsstring) :
  existsb is_rejected_write (tr ++ [Written s])
  = existsb is_rejected_write tr.
Proof. rewrite existsb_app. cbn. now rewrite orb_false_r. Qed.

Lemma keeps_write (s : jsstring) : keeps_writer client (write client s).
Proof.
  intros tr H. unfold write.
  destruct (client (List.length tr)) as [e|] eqn:Ec; cbn [snd].
  - right. rewrite length_app. cbn [List.length].
    apply (client_sticky (i := List.length tr)); [lia|]. now rewrite Ec.
  - left. rewrite rejected_snoc_written.
    destruct H as [H|H]; [exact H | now elim H].
Qed.

Lemma keeps_bind {A B : Type} (m : io A) (k : A -> io B) :
  keeps_writer client m -> (forall a, keeps_writer client (k a)) ->
  keeps_writer client (io_bind m k).
Proof.
  intros Hm Hk tr H. unfold io_bind. specialize (Hm tr H).
  destruct (m tr) as [[a|e] tr']; cbn [snd] in *; [now apply Hk | exact Hm].
Qed.

Lemma keeps_try {A : Type} (m : io A) (h : jsstring -> io A) :
  keeps_writer client m -> (forall e, keeps_writer client (h e)) ->
  keeps_writer client (try_catch m h).
Proof.
  intros Hm Hh tr H. unfold try_catch. specialize (Hm tr H).
  destruct (m tr) as [[a|e] tr']; cbn [snd] in *; [exact Hm | now apply Hh].
Qed.

(** A write that succeeds on such a trace leaves it without rejection. *)
Lemma write_ok_clean (s : jsstring) (tr tr' : list event) (u : unit) :
  clean_or_broken client tr -> write client s tr = (Ok u, tr') ->
  existsb is_rejected_write tr' = false.
Proof.
  intros H. unfold write.
  destruct (client (List.length tr)) as [e|] eqn:Ec; [discriminate|].
  intros E. injection E as _ <-. rewrite rejected_snoc_written.
  destruct H as [H|H]; [exact H | now elim H].
Qed.

End WriterInvariant.

#[local] Hint Resolve keeps_ret keeps_throw keeps_write keeps_bind keeps_try
  : pump_steps.

Section Exchange.

Context {platform : Platform}.
Variable client : downstream.
Variable show : bool.

Lemma adds_process_line line started :
  adds_writes (process_line client show line started).
Proof.
  unfold process_line.
  destruct (is_blank line); auto with pump_steps.
  destruct (startsWith DATA_PREFIX line); auto with pump_steps.
  destruct (includes DONE_TOKEN line); auto with pump_steps.
  destruct (JSON_parse (slice 6 line)) as [data|]; auto with pump_steps.
  destruct (merge show started data) as [[d|] st]; auto 6 with pump_steps.
Qed.

Lemma adds_for_lines lines started :
  adds_writes (for_lines client show lines started).
Proof.
  revert started. induction lines as [|line lines IH]; intros started;
    cbn [for_lines]; auto using adds_process_line with pump_steps.
Qed.

Lemma adds_write_remaining lines : adds_writes (write_remaining client lines).
Proof.
  induction lines as [|line lines IH]; cbn [write_remaining];
    auto with pump_steps.
  apply adds_bind; [|auto].
  destruct (startsWith DATA_PREFIX (trim line)
            && negb (includes DONE_TOKEN line)); auto with pump_steps.
Qed.

Lemma adds_finish buffer : adds_writes (finish client buffer).
Proof.
  unfold finish. apply adds_bind; auto with pump_steps.
  destruct (str_truthy (trim buffer));
    auto using adds_write_remaining with pump_steps.
Qed.

Lemma adds_loop reads buffer dec started :
  adds_writes (loop client show reads buffer dec started).
Proof.
  revert buffer dec started.
  induction reads as [|[v|e] reads IH]; intros buffer dec started;
    cbn [loop]; auto using adds_finish with pump_steps.
  destruct (decode dec v) as [dec' text].
  destruct (feed buffer text) as [lines buffer'].
  auto using adds_for_lines with pump_steps.
Qed.

Hypothesis client_sticky : sticky client.

Lemma keeps_process_line line started :
  keeps_writer client (process_line client show line started).
Proof.
  unfold process_line.
  destruct (is_blank line); auto with pump_steps.
  destruct (startsWith DATA_PREFIX line); auto with pump_steps.
  destruct (includes DONE_TOKEN line); auto with pump_steps.
  destruct (JSON_parse (slice 6 line)) as [data|]; auto with pump_steps.
  destruct (merge show started data) as [[d|] st]; auto 6 with pump_steps.
Qed.

Lemma keeps_for_lines lines started :
  keeps_writer client (for_lines client show lines started).
Proof.
  revert started. induction lines as [|line lines IH]; intros started;
    cbn [for_lines]; auto using keeps_process_line with pump_steps.
Qed.

Lemma keeps_write_remaining lines :
  keeps_writer client (write_remaining client lines).
Proof.
  induction lines as [|line lines IH]; cbn [write_remaining];
    auto with pump_steps.
  apply keeps_bind; [|auto].
  destruct (startsWith DATA_PREFIX (trim line)
            && negb (includes DONE_TOKEN line)); auto with pump_steps.
Qed.

(** The [done] branch ends with a write: it succeeds only when no write
    was rejected on the way. *)
Lemma finish_ok_clean buffer tr tr' (u : unit) :
  clean_or_broken client tr -> finish client buffer tr = (Ok u, tr') ->
  existsb is_rejected_write tr' = false.
Proof.
  intros H. unfold finish, io_bind.
  assert (Hk : keeps_writer client
                 (if str_truthy (trim buffer)
                  then write_remaining client (split_nl buffer)
                  else ret tt)).
  { destruct (str_truthy (trim buffer));
      auto using keeps_write_remaining with pump_steps. }
  specialize (Hk tr H).
  destruct ((if str_truthy (trim buffer)
             then write_remaining client (split_nl buffer)
             else ret tt) tr) as [[a|e] tr1]; [|discriminate].
  cbn [snd] in Hk. intros E. eapply write_ok_clean; eassumption.
Qed.

Lemma loop_ok_clean reads buffer dec started tr tr' (u : unit) :
  clean_or_broken client tr ->
  loop client show reads buffer dec started tr = (Ok u, tr') ->
  existsb is_rejected_write tr' = false.
Proof.
  revert buffer dec started tr.
  induction reads as [|[v|e] reads IH]; intros buffer dec started tr H;
    cbn [loop].
  - now apply finish_ok_clean.
  - destruct (decode dec v) as [dec' text].
    destruct (feed buffer text) as [lines buffer'].
    unfold io_bind.
    pose proof (keeps_for_lines lines started H) as Hk.
    destruct (for_lines client show lines started tr) as [[st|e] tr1];
      [|discriminate].
    cbn [snd] in Hk. now apply IH.
  - discriminate.
Qed.

End Exchange.

Section Cleanup.

Context {platform : Platform}.
Variable client : downstream.
Variable show : bool.

(** The handler of line 233 never throws and leaves [report_trace]. *)
Lemma report_run (e : jsstring) (tr : list event) :
  report client e tr = (Ok tt, tr ++ report_trace client tr e).
Proof.
  unfold report, report_trace, try_catch, io_bind, write, ret.
  destruct (client (List.length tr)) as [e1|]; [reflexivity|].
  rewrite length_app, Nat.add_1_r. cbn [List.length].
  destruct (client (S (List.length tr))) as [e2|];
    now rewrite <- app_assoc.
Qed.

(** The [finally] of line 242 never throws and leaves one close attempt. *)
Lemma close_run (tr : list event) :
  try_catch (close client) (fun _ => ret tt) tr
  = (Ok tt, tr ++ [close_event client tr]).
Proof.
  unfold try_catch, close, close_event, ret.
  now destruct (client (List.length tr)).
Qed.

Lemma pump_run (reads : list read_result) :
  pump client show reads =
  match loop client show reads [] new_TextDecoder false [] with
  | (Ok _, tr) => (Ok tt, tr ++ [close_event client tr])
  | (Throw e, tr) =>
      (Ok tt,
       (tr ++ report_trace client tr e)
         ++ [close_event client (tr ++ report_trace client tr e)])
  end.
Proof.
  unfold pump, try_finally. unfold try_catch at 1.
  destruct (loop client show reads [] new_TextDecoder false [])
    as [[[]|e] tr].
  - now rewrite close_run.
  - now rewrite report_run, close_run.
Qed.

Lemma report_trace_writes (tr : list event) (e : jsstring) :
  count is_close_attempt (report_trace client tr e) = 0%nat.
Proof.
  unfold report_trace. destruct (client (List.length tr)); [reflexivity|].
  now destruct (client (S (List.length tr))).
Qed.

Lemma close_event_counts (tr : list event) :
  count is_close_attempt [close_event client tr] = 1%nat.
Proof. unfold close_event. now destruct (client (List.length tr)). Qed.

(** A rejected read ends the loop with an error, wherever it comes. *)
Lemma loop_read_rejected (chunks : list (list byte)) (e : jsstring)
  (rest : list read_result) (buffer : jsstring) (dec : decoder)
  (started : bool) (tr : list event) :
  exists e',
    fst (loop client show (map Chunk chunks ++ ReadRejected e :: rest)
              buffer dec started tr) = Throw e'.
Proof.
  revert buffer dec started tr.
  induction chunks as [|v chunks IH]; intros buffer dec started tr.
  - now exists e.
  - cbn [map app loop]. destruct (decode dec v) as [dec' text].
    destruct (feed buffer text) as [lines buffer']. unfold io_bind.
    destruct (for_lines client show lines started tr) as [[st|e1] tr1].
    + apply IH.
    + now exists e1.
Qed.

End Cleanup.

(** With a client that accepts everything the error is the one of the
    read, and every frame before it was delivered. *)
Lemma loop_read_rejected_attentive {platform : Platform} (show : bool)
  (chunks : list (list byte)) (e : jsstring) (rest : list read_result)
  (buffer : jsstring) (dec : decoder) (started : bool) (tr : list event) :
  exists frames,
    loop attentive show (map Chunk chunks ++ ReadRejected e :: rest)
         buffer dec started tr
    = (Throw e, tr ++ map Written frames).
Proof.
  revert buffer dec started tr.
  induction chunks as [|v chunks IH]; intros buffer dec started tr.
  - exists []. cbn. now rewrite app_nil_r.
  - cbn [map app loop]. destruct (decode dec v) as [dec' text].
    destruct (feed buffer text) as [lines buffer']. unfold io_bind.
    destruct (for_lines_attentive show lines started tr)
      as (st & frames & -> & _).
    destruct (IH buffer' dec' st (tr ++ map Written frames))
      as (frames' & ->).
    exists (frames ++ frames'). now rewrite map_app, app_assoc.
Qed.

(** C8 (amended).  The exchange never throws and always ends with exactly
    one attempt to close the writer, whose rejection is swallowed.  When the
    loop ends with an error, a diagnostic frame carrying the message is
    attempted before that and, if it is accepted, a terminal frame; when it
    ends normally there is none.  The loop does end with an error whenever a
    read is rejected, and whenever a write is rejected by a writer that stays
    broken; after a rejected read a client that is still there receives the
    diagnostic and the terminal frame.  (An error while parsing or rewriting
    a line is not one of the loop: see [data_lines_yield_one_frame].) *)
Theorem pump_always_closes_once {platform : Platform} (show : bool)
  (reads : list read_result) :
  (forall client,
      let main := loop client show reads [] new_TextDecoder false [] in
      let out := pump client show reads in
      fst out = Ok tt
      /\ count is_close_attempt (snd out) = 1%nat
      /\ (exists body,
             snd out = body ++ [close_event client body]
             /\ count is_close_attempt body = 0%nat)
      /\ (forall u, fst main = Ok u ->
                    snd out = snd main ++ [close_event client (snd main)])
      /\ (forall e, fst main = Throw e ->
                    snd out
                    = (snd main ++ report_trace client (snd main) e)
                        ++ [close_event client
                              (snd main ++ report_trace client (snd main) e)])
      /\ (forall chunks e rest,
             reads = map Chunk chunks ++ ReadRejected e :: rest ->
             exists e', fst main = Throw e')
      /\ (sticky client ->
          existsb is_rejected_write (snd main) = true ->
          exists e', fst main = Throw e'))
  /\ (forall chunks e rest,
         reads = map Chunk chunks ++ ReadRejected e :: rest ->
         exists frames,
           pump attentive show reads
           = (Ok tt,
              map Written frames
                ++ [Written (error_frame e); Written DONE_FRAME; Closed])).
Proof.
  split.
  - intros client main out. unfold out. rewrite pump_run. fold main.
    destruct (adds_loop client show reads [] new_TextDecoder false [])
      as (added & Hadd & Hcount).
    fold main in Hadd. cbn [app] in Hadd.
    assert (Hbody : forall extra,
               count is_close_attempt extra = 0%nat ->
               count is_close_attempt
                 ((snd main ++ extra)
                    ++ [close_event client (snd main ++ extra)])
               = 1%nat).
    { intros extra Hx.
      now rewrite !count_app, Hadd, Hcount, Hx, close_event_counts. }
    destruct main as [[[]|e] tr] eqn:Emain; cbn [fst snd] in *.
    + split; [reflexivity|]. split.
      { specialize (Hbody [] eq_refl). now rewrite app_nil_r in Hbody. }
      split; [exists tr; split; [reflexivity | now rewrite Hadd]|].
      split; [reflexivity|]. split; [discriminate|].
      split.
      * intros chunks e rest ->.
        destruct (loop_read_rejected client show chunks e rest []
                    new_TextDecoder false []) as [e' He'].
        unfold main in Emain. rewrite Emain in He'. now exists e'.
      * intros Hsticky Hrej.
        rewrite (@loop_ok_clean _ client show Hsticky reads [] new_TextDecoder
                   false [] tr tt (or_introl eq_refl) Emain) in Hrej.
        discriminate.
    + split; [reflexivity|].
      split; [apply Hbody, report_trace_writes|].
      split.
      { exists (tr ++ report_trace client tr e). split; [reflexivity|].
        now rewrite count_app, Hadd, Hcount, report_trace_writes. }
      split; [discriminate|].
      split; [intros e0 E; now injection E as <-|].
      split; intros; now exists e.
  - intros chunks e rest ->.
    destruct (loop_read_rejected_attentive show chunks e rest []
                new_TextDecoder false []) as (frames & Hloop).
    exists frames. rewrite pump_run, Hloop. cbn [app].
    unfold report_trace, close_event, attentive.
    now rewrite <- app_assoc.
Qed.

Lemma pump_always_closes_once_witness :
  pump (platform := sample_platform) (gone_after 1 (lit "gone")) true
       [Chunk (bytes "data: [DONE]" ++ NL); Chunk (bytes "data: [DONE]" ++ NL)]
  = (Ok tt,
     [Written (lit "data: [DONE]" ++ SEPARATOR);
      WriteRejected (lit "data: [DONE]" ++ SEPARATOR);
      WriteRejected (error_frame (lit "gone")); CloseRejected])
  /\ exists frames,
      pump (platform := sample_platform) attentive true
           [Chunk (bytes "data: x" ++ NL); ReadRejected (lit "reset")]
      = (Ok tt,
         map Written frames
           ++ [Written (error_frame (lit "reset")); Written DONE_FRAME;
               Closed]).
Proof.
  split; [reflexivity|].
  destruct (@pump_always_closes_once sample_platform true
              [Chunk (bytes "data: x" ++ NL); ReadRejected (lit "reset")])
    as [_ H].
  apply (H [bytes "data: x" ++ NL] (lit "reset") []). reflexivity.
Defined.

(** C8 as stated fails for an error while transforming: a payload whose
    rewriting throws, like a line that does not parse, is forwarded as it
    came, and no diagnostic frame is attempted. *)
Lemma transform_errors_are_not_reported :
  JSON_parse (Platform := sample_platform) (lit "null") = Some JNull
  /\ merge (platform := sample_platform) true false JNull = (None, false)
  /\ pump (platform := sample_platform) attentive true
          [Chunk (bytes "data: null" ++ NL)]
     = (Ok tt,
        [Written (lit "data: null" ++ SEPARATOR); Written DONE_FRAME; Closed])
  /\ JSON_parse (Platform := sample_platform) (lit "{oops") = None
  /\ pump (platform := sample_platform) attentive true
          [Chunk (bytes "data: {oops" ++ NL)]
     = (Ok tt,
        [Written (lit "data: {oops" ++ SEPARATOR); Written DONE_FRAME;
         Closed]).
Proof. repeat split; reflexivity. Qed.

(** ** Further properties *)

(** *** The line splitter *)

Lemma join_split_nl (s : jsstring) : join_nl (split_nl s) = s.
Proof.
  induction s as [|c s IH]; [reflexivity|].
  cbn [split_nl]. pose proof (split_nl_not_nil s) as Hne.
  destruct (c =? LF) eqn:Ec.
  - apply N.eqb_eq in Ec. subst c. cbn [join_nl].
    destruct (split_nl s) as [|l ls]; [contradiction|].
    cbn [app]. now rewrite IH.
  - destruct (split_nl s) as [|l ls]; [contradiction|].
    cbn [join_nl] in *. destruct ls; cbn [app]; now rewrite IH.
Qed.

(** X1.  Lines 170-172 lose nothing: the complete lines and the new buffer,
    joined by newlines again, are the old buffer followed by the decoded
    chunk. *)
Theorem feed_loses_nothing (buffer text : jsstring) :
  join_nl (fst (feed buffer text) ++ [snd (feed buffer text)])
  = buffer ++ text.
Proof.
  unfold feed. cbn [fst snd].
  pose proof (split_nl_not_nil (buffer ++ text)) as Hne.
  rewrite <- app_removelast_last by assumption. apply join_split_nl.
Qed.

(** *** The exchange with a client that stays *)

Section Transcoder.

Context {platform : Platform}.

Lemma for_lines_attentive_run (show : bool) (lines : list jsstring)
  (started : bool) (tr : list event) :
  for_lines attentive show lines started tr
  = (Ok (snd (rewritten_lines show lines started)),
     tr ++ map Written (fst (rewritten_lines show lines started))).
Proof.
  revert started tr. induction lines as [|line lines IH]; intros started tr.
  - cbn. now rewrite app_nil_r.
  - cbn [for_lines rewritten_lines]. unfold io_bind.
    rewrite process_line_accepted by reflexivity.
    destruct (is_data_line line); [|apply IH].
    destruct (rewritten_line show line started) as [frame st].
    cbn [fst snd]. rewrite IH.
    destruct (rewritten_lines show lines st) as [frames final].
    cbn [fst snd map]. now rewrite <- app_assoc.
Qed.

Lemma write_remaining_attentive (lines : list jsstring) (tr : list event) :
  write_remaining attentive lines tr
  = (Ok tt,
     tr ++ map Written (map (fun line => line ++ SEPARATOR)
                            (filter is_leftover_data lines))).
Proof.
  revert tr. induction lines as [|line lines IH]; intros tr.
  - cbn. now rewrite app_nil_r.
  - cbn [write_remaining filter]. unfold io_bind. fold (is_leftover_data line).
    destruct (is_leftover_data line).
    + unfold try_catch. rewrite write_accepted by reflexivity.
      rewrite IH. cbn [map]. now rewrite <- app_assoc.
    + cbn [ret]. apply IH.
Qed.

Lemma finish_attentive (buffer : jsstring) (tr : list event) :
  finish attentive buffer tr
  = (Ok tt, tr ++ map Written (leftover_frames buffer ++ [DONE_FRAME])).
Proof.
  unfold finish, leftover_frames, io_bind.
  destruct (str_truthy (trim buffer)).
  - rewrite write_remaining_attentive, write_accepted by reflexivity.
    now rewrite map_app, app_assoc.
  - cbn [ret]. now rewrite write_accepted by reflexivity.
Qed.

(** X2.  For a client that accepts every write and an upstream that is read
    to its end, the exchange is a pure function of the chunks: the frames of
    the complete data lines in their order, then what the [done] branch
    makes of the rest, then the terminal frame, then the close; it ends
    normally. *)
Theorem exchange_is_the_transcoded_stream (show : bool)
  (chunks : list (list byte)) :
  pump attentive show (map Chunk chunks)
  = (Ok tt, map Written (transcoded show chunks) ++ [Closed]).
Proof.
  rewrite pump_run, loop_chunks. unfold io_bind, transcoded.
  rewrite for_lines_attentive_run.
  destruct (feed_all chunks [] new_TextDecoder) as [lines rest].
  cbn [fst snd]. rewrite finish_attentive. cbn [app].
  unfold close_event, attentive. now rewrite !map_app.
Qed.

(** X3.  The [done] branch does not rewrite: a last line that the upstream
    did not terminate is forwarded as it came when it is a data line without
    the terminal token (its reasoning is neither merged nor removed), and
    dropped otherwise; the terminal frame follows in both cases. *)
Theorem unterminated_line_is_not_rewritten (buffer : jsstring)
  (tr : list event) :
  has_newline buffer = false ->
  finish attentive buffer tr
  = (Ok tt,
     tr ++ (if is_leftover_data buffer
            then [Written (buffer ++ SEPARATOR)] else [])
        ++ [Written DONE_FRAME]).
Proof.
  intros Hnl. rewrite finish_attentive. unfold leftover_frames.
  rewrite split_nl_one_line by assumption. cbn [filter].
  destruct (str_truthy (trim buffer)) eqn:Et.
  - now destruct (is_leftover_data buffer).
  - unfold is_leftover_data. destruct (trim buffer); [|discriminate].
    reflexivity.
Qed.

End Transcoder.

Lemma unterminated_line_is_not_rewritten_witness :
  let line := DATA_PREFIX ++ sample_stringify (reasoning_delta (lit "r")) in
  finish attentive line []
  = (Ok tt, [Written (line ++ SEPARATOR); Written DONE_FRAME])
  /\ pump (platform := sample_platform) attentive true
          [Chunk (ascii_bytes line)]
     = (Ok tt, [Written (line ++ SEPARATOR); Written DONE_FRAME; Closed])
  /\ pump (platform := sample_platform) attentive true
          [Chunk (ascii_bytes line ++ NL)]
     = (Ok tt,
        [Written (DATA_PREFIX
                    ++ sample_stringify
                         (content_delta (lit "<think>" ++ [LF] ++ lit "r"))
                    ++ SEPARATOR);
         Written DONE_FRAME; Closed]).
Proof.
  intros line. split; [|split; reflexivity].
  apply (@unterminated_line_is_not_rewritten line []). reflexivity.
Defined.

(** *** The merger as a state machine *)

Section MergerMachine.

Context {platform : Platform}.

Lemma combine_state (r c : jsval) (started started' : bool) (cc : json) :
  combine r c started = (Some cc, started') ->
  started' = negb (truthy c) && (started || truthy r).
Proof.
  unfold combine.
  destruct (as_truthy r) as [rv|] eqn:Er.
  - apply as_truthy_some in Er as [-> Hrv]. cbn [truthy]. rewrite Hrv.
    rewrite orb_true_r, andb_true_r.
    assert (Hsecond : forall c1 : json,
      match as_truthy c with
      | Some cv =>
          match (t <- js_add (JStr THINK_CLOSE) cv ;; js_add c1 t) with
          | Some c' => (Some c', false)
          | None => (None, true)
          end
      | None => (Some c1, true)
      end = (Some cc, started') -> started' = negb (truthy c)).
    { intros c1. destruct (as_truthy c) as [cv|] eqn:Ec.
      - apply as_truthy_some in Ec as [-> Hcv]. cbn [truthy]. rewrite Hcv.
        destruct (t <- js_add (JStr THINK_CLOSE) cv ;; js_add c1 t);
          [|discriminate]. now intros E; injection E as _ <-.
      - apply as_truthy_none in Ec. rewrite Ec.
        now intros E; injection E as _ <-. }
    destruct started; cbn [negb].
    + apply Hsecond.
    + destruct (js_add (JStr THINK_OPEN) rv) as [c1|]; [|discriminate].
      apply Hsecond.
  - apply as_truthy_none in Er. rewrite Er, orb_false_r.
    destruct (as_truthy c) as [cv|] eqn:Ec.
    + apply as_truthy_some in Ec as [-> Hcv]. cbn [truthy]. rewrite Hcv.
      destruct started.
      * destruct (t <- js_add (JStr THINK_CLOSE) cv ;; js_add (JStr []) t);
          [|discriminate]. now intros E; injection E as _ <-.
      * destruct (js_add (JStr []) cv); [|discriminate].
        now intros E; injection E as _ <-.
    + apply as_truthy_none in Ec. rewrite Ec.
      now intros E; injection E as _ <-.
Qed.

Lemma falsy_has_no_member (k : jsstring) (delta : jsval) :
  as_truthy delta = None -> opt_member k delta = None.
Proof.
  destruct delta as [[| | | | |fs]|]; try reflexivity. discriminate.
Qed.

(** X4.  With [SHOW_REASONING], whatever the payload holds, a rewriting
    that does not throw leaves [reasoningStarted] true exactly when the
    delta carries no answer and either carries reasoning or the block was
    already open: an answer always closes, reasoning alone always opens. *)
Theorem reasoning_block_state (started started' : bool) (data data' : json)
  (delta : jsval) :
  delta_of data = Some delta ->
  merge true started data = (Some data', started') ->
  started' = negb (truthy (opt_member k_content delta))
             && (started || truthy (opt_member k_reasoning delta)).
Proof.
  intros Hd. unfold merge. rewrite Hd.
  destruct (as_truthy delta) as [d|] eqn:Et.
  - apply as_truthy_some in Et as [-> _].
    destruct (combine (opt_member k_reasoning (Some d))
                      (opt_member k_content (Some d)) started)
      as [[cc|] st] eqn:Ec; [|discriminate].
    apply combine_state in Ec.
    destruct (json_truthy cc); intros E; injection E as _ <-; exact Ec.
  - rewrite !(falsy_has_no_member _ _ Et). cbn [truthy negb andb].
    rewrite orb_false_r. now intros E; injection E as _ <-.
Qed.

Lemma combine_text (r c : jsval) (started : bool) :
  text_or_absent r = true -> text_or_absent c = true ->
  combine r c started
  = (Some (JStr ((if str_truthy (text_of r) && negb started
                  then THINK_OPEN else [])
                   ++ text_of r
                   ++ (if str_truthy (text_of c)
                          && (started || str_truthy (text_of r))
                       then THINK_CLOSE else [])
                   ++ text_of c)),
     negb (str_truthy (text_of c)) && (started || str_truthy (text_of r))).
Proof.
  destruct r as [[| | |[|x r]| |]|], c as [[| | |[|y c]| |]|], started;
    try discriminate; intros _ _; cbn; rewrite ?app_nil_r, <- ?app_assoc;
    reflexivity.
Qed.

Lemma delta_content_of (data : json) (fs : list (jsstring * json))
  (s : jsstring) :
  delta_of data = Some (Some (JObj fs)) ->
  lookup k_content fs = Some (JStr s) -> delta_content data = s.
Proof. intros Hd Hc. unfold delta_content. now rewrite Hd, Hc. Qed.

(** X5.  With [SHOW_REASONING], a payload whose delta holds text, [null] or
    nothing as reasoning and as content is never refused: when both texts
    are empty it goes out unchanged; otherwise its content becomes the
    opening marker (if reasoning starts a block), the reasoning, the
    closing marker (if an answer ends a block) and the answer, and its
    reasoning field is removed. *)
Theorem text_delta_is_merged (started : bool) (data : json)
  (fs : list (jsstring * json)) :
  delta_of data = Some (Some (JObj fs)) ->
  text_or_absent (lookup k_reasoning fs) = true ->
  text_or_absent (lookup k_content fs) = true ->
  let r := text_of (lookup k_reasoning fs) in
  let c := text_of (lookup k_content fs) in
  exists data',
    merge true started data
    = (Some data', negb (str_truthy c) && (started || str_truthy r))
    /\ (str_truthy r || str_truthy c = false -> data' = data)
    /\ (str_truthy r || str_truthy c = true ->
        delta_content data'
        = (if str_truthy r && negb started then THINK_OPEN else [])
            ++ r
            ++ (if str_truthy c && (started || str_truthy r)
                then THINK_CLOSE else [])
            ++ c
        /\ option_map (opt_member k_reasoning) (delta_of data')
           = Some None).
Proof.
  intros Hd Hr Hc r c.
  rewrite (@merge_object_delta _ true started data fs Hd). cbv beta zeta.
  rewrite (combine_text _ _ started Hr Hc). fold r c.
  set (out := (if str_truthy r && negb started then THINK_OPEN else [])
                ++ r
                ++ (if str_truthy c && (started || str_truthy r)
                    then THINK_CLOSE else [])
                ++ c).
  assert (Hout : json_truthy (JStr out) = str_truthy r || str_truthy c).
  { unfold out. destruct r, c, started; reflexivity. }
  rewrite Hout. destruct (str_truthy r || str_truthy c).
  - destruct (@rewrite_object_delta (JStr out) data fs Hd)
      as (data' & Hw & Hd' & _).
    destruct (@rewritten_fields (JStr out) fs) as (Hcontent & Hreasoning & _).
    exists data'. rewrite Hw. split; [reflexivity|].
    split; [discriminate|]. intros _. split.
    + now apply (delta_content_of _ Hd').
    + rewrite Hd'. cbn [option_map opt_member]. now rewrite Hreasoning.
  - exists data. split; [reflexivity|]. split; [reflexivity|discriminate].
Qed.

(** X6.  The handler of line 225 also catches a rejected write: when the
    rewritten frame is rejected the raw line is written in its place, and
    the loop goes on if that write is accepted; if it is rejected too, its
    error ends the loop. *)
Theorem rejected_frame_is_retried_raw (client : downstream) (show : bool)
  (line : jsstring) (started started' : bool) (data data' : json)
  (tr : list event) (e : jsstring) :
  is_data_line line = true ->
  includes DONE_TOKEN line = false ->
  JSON_parse (slice 6 line) = Some data ->
  merge show started data = (Some data', started') ->
  client (List.length tr) = Some e ->
  process_line client show line started tr
  = match client (S (List.length tr)) with
    | None =>
        (Ok started',
         tr ++ [WriteRejected (data_frame data');
                Written (line ++ SEPARATOR)])
    | Some e' =>
        (Throw e',
         tr ++ [WriteRejected (data_frame data');
                WriteRejected (line ++ SEPARATOR)])
    end.
Proof.
  unfold is_data_line, process_line. intros Hline Hdone Hparse Hmerge He.
  apply andb_true_iff in Hline as [Hblank Hstart].
  apply negb_true_iff in Hblank.
  rewrite Hblank, Hstart, Hdone, Hparse, Hmerge.
  unfold io_bind, try_catch, write. rewrite He.
  rewrite length_app, Nat.add_1_r. cbn [List.length].
  destruct (client (S (List.length tr))); now rewrite <- app_assoc.
Qed.

End MergerMachine.

Lemma reasoning_block_state_witness :
  merge (platform := sample_platform) true true
        (both_delta (lit "r") (lit "a"))
  = (Some (content_delta (lit "r" ++ [LF] ++ lit "</think>" ++ [LF; LF]
                            ++ lit "a")), false)
  /\ false
     = negb (truthy (Some (JStr (lit "a"))))
       && (true || truthy (Some (JStr (lit "r")))).
Proof.
  split; [reflexivity|].
  apply (@reasoning_block_state sample_platform true false
           (both_delta (lit "r") (lit "a"))
           (content_delta (lit "r" ++ [LF] ++ lit "</think>" ++ [LF; LF]
                             ++ lit "a"))
           (Some (JObj [(k_reasoning, JStr (lit "r"));
                        (k_content, JStr (lit "a"))])));
    reflexivity.
Defined.

Lemma text_delta_is_merged_witness :
  exists data',
    merge (platform := sample_platform) true false idle_delta
    = (Some data', false)
    /\ data' = idle_delta.
Proof.
  destruct (@text_delta_is_merged sample_platform false idle_delta
              [(lit "role", JStr (lit "assistant"));
               (k_content, JStr []); (k_reasoning, JNull)]
              eq_refl eq_refl eq_refl) as (data' & Hm & Hsame & _).
  exists data'. split; [exact Hm | now apply Hsame].
Defined.

Lemma rejected_frame_is_retried_raw_witness :
  let line := DATA_PREFIX ++ sample_stringify (content_delta (lit "x")) in
  process_line (platform := sample_platform)
    (fun i => if Nat.eqb i 0 then Some (lit "busy") else None)
    true line false []
  = (Ok false,
     [WriteRejected (DATA_PREFIX ++ sample_stringify (content_delta (lit "x"))
                       ++ SEPARATOR);
      Written (line ++ SEPARATOR)]).
Proof.
  intros line.
  apply (@rejected_frame_is_retried_raw sample_platform
           (fun i => if Nat.eqb i 0 then Some (lit "busy") else None)
           true line false false (content_delta (lit "x"))
           (content_delta (lit "x")) [] (lit "busy")); reflexivity.
Defined.

(** *** The API key *)

Lemma trim_start_white (ws rest : jsstring) :
  forallb is_white_space ws = true ->
  trim_start (ws ++ rest) = trim_start rest.
Proof.
  induction ws as [|c ws IH]; [reflexivity|].
  cbn [forallb app trim_start]. intros H.
  apply andb_true_iff in H as [Hc Hws]. rewrite Hc. now apply IH.
Qed.

Lemma trim_start_idem (s : jsstring) :
  trim_start (trim_start s) = trim_start s.
Proof.
  induction s as [|c s IH]; [reflexivity|].
  cbn [trim_start]. destruct (is_white_space c) eqn:Ec; [exact IH|].
  cbn [trim_start]. now rewrite Ec.
Qed.

Lemma trim_start_snoc (l : jsstring) (x : code_unit) :
  is_white_space x = false -> trim_start (l ++ [x]) = trim_start l ++ [x].
Proof.
  intros Hx. induction l as [|c l IH]; cbn [app trim_start].
  - now rewrite Hx.
  - now destruct (is_white_space c).
Qed.

Lemma trim_trim_start (s : jsstring) : trim (trim_start s) = trim s.
Proof. unfold trim. now rewrite trim_start_idem. Qed.

(** What [trim] returns starts with no white space. *)
Lemma trim_start_trim (s : jsstring) : trim_start (trim s) = trim s.
Proof.
  unfold trim. destruct (trim_start s) as [|x a] eqn:Ea; [reflexivity|].
  assert (Hx : is_white_space x = false).
  { clear -Ea. induction s as [|c s IH]; [discriminate|].
    cbn [trim_start] in Ea. destruct (is_white_space c) eqn:Ec; [auto|].
    now injection Ea as <- _. }
  cbn [rev]. rewrite trim_start_snoc by assumption.
  rewrite rev_app_distr. cbn [rev app trim_start]. now rewrite Hx.
Qed.

Lemma trim_idem (s : jsstring) : trim (trim s) = trim s.
Proof.
  unfold trim at 1. rewrite trim_start_trim. unfold trim.
  now rewrite rev_involutive, trim_start_idem.
Qed.

Lemma trim_white (ws : jsstring) :
  forallb is_white_space ws = true -> trim ws = [].
Proof.
  intros H. unfold trim.
  rewrite <- (app_nil_r ws), trim_start_white by assumption. reflexivity.
Qed.

Lemma after_bearer_scheme (scheme ws key : jsstring) :
  str_eqb (map ascii_lower scheme) (lit "bearer") = true ->
  ws <> [] -> forallb is_white_space ws = true ->
  after_bearer (scheme ++ ws ++ key) = Some (trim_start key).
Proof.
  intros Hs Hne Hws. apply str_eqb_eq in Hs.
  assert (Hlen : List.length scheme = 6%nat).
  { rewrite <- (length_map ascii_lower), Hs. reflexivity. }
  unfold after_bearer.
  rewrite firstn_app, Hlen, Nat.sub_diag, firstn_O, app_nil_r.
  rewrite <- Hlen, firstn_all, Hs, str_eqb_refl.
  rewrite skipn_app, skipn_all, Nat.sub_diag. cbn [app skipn].
  destruct ws as [|c ws]; [contradiction|].
  cbn [forallb app] in *. apply andb_true_iff in Hws as [Hc Hws].
  rewrite Hc. now rewrite trim_start_white.
Qed.

(** X7.  The scheme is optional: a header made of [Bearer] in any case,
    white space and a key gives the key without the white space around it,
    and so does a header that does not match the scheme. *)
Theorem bearer_scheme_is_optional :
  (forall scheme ws key,
      str_eqb (map ascii_lower scheme) (lit "bearer") = true ->
      ws <> [] -> forallb is_white_space ws = true ->
      extract_api_key (Some (scheme ++ ws ++ key)) = Some (trim key))
  /\ (forall header,
         header <> [] -> after_bearer header = None ->
         extract_api_key (Some header) = Some (trim header)).
Proof.
  split.
  - intros scheme ws key Hs Hne Hws. unfold extract_api_key, strip_bearer.
    rewrite (after_bearer_scheme _ _ Hs Hne Hws), trim_trim_start.
    apply str_eqb_eq in Hs. destruct scheme; [discriminate|]. reflexivity.
  - intros header Hne Hnone. unfold extract_api_key, strip_bearer.
    rewrite Hnone. now destruct header.
Qed.

Lemma bearer_scheme_is_optional_witness :
  extract_api_key (Some (lit "bEARER" ++ [32; 9] ++ lit "nvapi-1 "))
  = Some (lit "nvapi-1")
  /\ extract_api_key (Some (lit " nvapi-1")) = Some (lit "nvapi-1")
  /\ extract_api_key (Some (lit "Bearernvapi-1"))
     = Some (lit "Bearernvapi-1").
Proof.
  destruct bearer_scheme_is_optional as [Hscheme Hplain].
  split; [|split].
  - apply (Hscheme (lit "bEARER") [32; 9] (lit "nvapi-1 "));
      [reflexivity | discriminate | reflexivity].
  - apply (Hplain (lit " nvapi-1")); [discriminate | reflexivity].
  - apply (Hplain (lit "Bearernvapi-1")); [discriminate | reflexivity].
Defined.

Lemma trim_start_clean (s : jsstring) :
  is_white_space (hd 0 s) = false -> trim_start s = s.
Proof. destruct s as [|c s]; [reflexivity|]. cbn. now intros ->. Qed.

(** A text with no white space at either end is its own [trim]. *)
Lemma trim_clean (s : jsstring) :
  s <> [] ->
  is_white_space (hd 0 s) = false -> is_white_space (last s 0) = false ->
  trim s = s.
Proof.
  intros Hne Hhd Hlast. unfold trim. rewrite (trim_start_clean _ Hhd).
  rewrite (app_removelast_last 0 Hne) at 1.
  rewrite rev_app_distr. cbn [rev app].
  rewrite trim_start_clean by exact Hlast.
  cbn [rev]. rewrite rev_involutive. symmetry.
  now apply app_removelast_last.
Qed.

Lemma trim_start_keeps_last (s : jsstring) :
  s <> [] -> is_white_space (last s 0) = false ->
  trim_start s <> []
  /\ last (trim_start s) 0 = last s 0
  /\ is_white_space (hd 0 (trim_start s)) = false.
Proof.
  induction s as [|c s IH]; [easy|]. intros _ Hlast.
  cbn [trim_start]. destruct (is_white_space c) eqn:Ec.
  - destruct s as [|c' s]; [cbn in Hlast; congruence|].
    destruct (IH ltac:(discriminate) Hlast) as (Hne & Hl & Hh).
    now repeat split.
  - now repeat split.
Qed.

(** X8.  The key never has white space at either end.  A header value that
    is not empty and neither begins nor ends with white space ([Headers.get]
    returns values without their outer spaces and tabs) always gives a
    usable key: the header itself, or what follows the scheme, as it is.
    So the word [Bearer] alone is taken as the key. *)
Theorem api_key_is_trimmed :
  (forall header key, extract_api_key header = Some key -> trim key = key)
  /\ (forall header,
         header <> [] ->
         is_white_space (hd 0 header) = false ->
         is_white_space (last header 0) = false ->
         usable_key (extract_api_key (Some header))
         = Some (strip_bearer header)
         /\ strip_bearer header <> []).
Proof.
  split.
  - intros [h|] key; cbn [extract_api_key]; [|discriminate].
    destruct (str_truthy h); [|discriminate].
    intros E. injection E as <-. apply trim_idem.
  - intros header Hne Hhd Hlast.
    assert (Hstrip : strip_bearer header <> []
                     /\ trim (strip_bearer header) = strip_bearer header).
    { unfold strip_bearer.
      destruct (after_bearer header) as [rest|] eqn:Ea;
        [|split; [exact Hne | now apply trim_clean]].
      unfold after_bearer in Ea. revert Ea.
      match goal with
      | |- (if ?b then _ else _) = _ -> _ =>
          destruct b; [|intros Ea; discriminate Ea]
      end.
      match goal with
      | |- match ?l with [] => _ | _ :: _ => _ end = _ -> _ =>
          destruct l as [|c rest'] eqn:Es; [intros Ea; discriminate Ea|]
      end.
      destruct (is_white_space c) eqn:Ec; [|intros Ea; discriminate Ea].
      intros Ea. injection Ea as <-.
      assert (Hl : last (c :: rest') 0 = last header 0).
      { pose proof (firstn_skipn 6 header) as Hh.
        unfold code_unit in *. rewrite Es in Hh.
        rewrite <- Hh. symmetry. now apply last_app_not_nil. }
      destruct rest' as [|c' rest']; [cbn in Hl; congruence|].
      change (last (c :: c' :: rest') 0) with (last (c' :: rest') 0) in Hl.
      rewrite <- Hl in Hlast.
      destruct (@trim_start_keeps_last (c' :: rest') ltac:(discriminate)
                  Hlast) as (Hne' & Hl' & Hh').
      split; [exact Hne'|]. apply trim_clean; [exact Hne'|exact Hh'|].
      now rewrite Hl'. }
    destruct Hstrip as [Hne' Htrim]. split; [|exact Hne'].
    unfold extract_api_key. destruct header as [|x header]; [easy|].
    cbn [str_truthy]. rewrite Htrim. unfold usable_key.
    destruct (strip_bearer (x :: header)); [easy | reflexivity].
Qed.

Lemma api_key_is_trimmed_witness :
  trim (lit "nvapi-1") = lit "nvapi-1"
  /\ usable_key (extract_api_key (Some (lit "Bearer")))
     = Some (lit "Bearer")
  /\ usable_key (extract_api_key (Some (lit "Bearer nvapi-1")))
     = Some (lit "nvapi-1").
Proof.
  destruct api_key_is_trimmed as [Htrim Hclean]. split; [|split].
  - apply (Htrim (Some (lit "Bearer nvapi-1"))). reflexivity.
  - apply (Hclean (lit "Bearer")); [discriminate | reflexivity | reflexivity].
  - apply (Hclean (lit "Bearer nvapi-1"));
      [discriminate | reflexivity | reflexivity].
Defined.

(** *** The handler *)

Section Handler.

Context {platform : Platform}.
Variables show thinking : bool.

Lemma cors_in_json_headers : incl corsHeaders json_headers.
Proof. unfold json_headers. apply incl_appl, incl_refl. Qed.

Lemma cors_in_stream_headers : incl corsHeaders stream_headers.
Proof. unfold stream_headers. apply incl_appl, incl_refl. Qed.

Lemma error_reply_proper (code : N) (m : error_text) (t : jsstring) :
  code <> 200 -> answers_properly (error_reply code m t).
Proof. intros H. split; [apply cors_in_json_headers | now split]. Qed.

Lemma internal_error_proper (e : error_text) :
  answers_properly (internal_error e).
Proof. apply error_reply_proper. discriminate. Qed.

Lemma not_2xx_not_200 (s : N) :
  negb ((200 <=? s) && (s <=? 299)) = true -> s <> 200.
Proof. intros H ->. discriminate. Qed.

Lemma chat_completions_proper (env : environment) (key : jsstring)
  (req : request) :
  answers_properly (chat_completions show thinking env key req).
Proof.
  unfold chat_completions.
  destruct (request_json req) as [body|m];
    [|apply internal_error_proper].
  destruct (build_nim_request thinking body) as [nimRequest|];
    [|apply internal_error_proper].
  destruct (fetch_chat env key nimRequest) as [reply|m];
    [|apply internal_error_proper].
  destruct (negb ((200 <=? chat_status reply) && (chat_status reply <=? 299)))
    eqn:Eok.
  - destruct (chat_text reply) as [errorText|m];
      [|apply internal_error_proper].
    unfold upstream_failure, upstream_ok. cbn [upstream_status upstream_text].
    apply negb_true_iff in Eok as Eok'. rewrite Eok'.
    destruct (Response_accepts (chat_status reply));
      [|apply internal_error_proper].
    split; [apply cors_in_json_headers|]. cbn.
    split; [reflexivity | now apply not_2xx_not_200].
  - destruct (truthy (opt_member (lit "stream") (Some body))).
    + destruct (chat_body reply) as [reads|];
        [|apply internal_error_proper].
      split; [apply cors_in_stream_headers | reflexivity].
    + destruct (chat_json reply) as [data|m];
        [|apply internal_error_proper].
      destruct (reshape_response show (now env 0%nat) (now env 1%nat)
                  (nim_model nimRequest) data);
        [|apply internal_error_proper].
      split; [apply cors_in_json_headers | reflexivity].
Qed.

Lemma models_endpoint_proper (env : environment) (key : jsstring) :
  answers_properly (models_endpoint env key).
Proof.
  unfold models_endpoint.
  destruct (fetch_models env key) as [reply|m];
    [destruct (models_ok reply); [destruct (models_json reply)|]|];
    (split; [apply cors_in_json_headers | reflexivity]).
Qed.

Lemma handle_proper (env : environment) (req : request) :
  answers_properly (handle show thinking env req).
Proof.
  unfold handle.
  destruct (str_eqb (request_method req) (lit "OPTIONS")).
  { split; [apply incl_refl | reflexivity]. }
  destruct (str_eqb (request_pathname req) (lit "/health")).
  { split; [apply cors_in_json_headers | reflexivity]. }
  destruct (usable_key (extract_api_key (request_authorization req)))
    as [key|]; [|apply error_reply_proper; discriminate].
  destruct (str_eqb (request_pathname req) (lit "/v1/models"));
    [apply models_endpoint_proper|].
  destruct (str_eqb (request_pathname req) (lit "/v1/chat/completions")
            && str_eqb (request_method req) (lit "POST"));
    [apply chat_completions_proper|].
  apply error_reply_proper. discriminate.
Qed.

(** X9.  Every response of the handler, whatever the request and whatever
    the upstream does, carries the three CORS headers. *)
Theorem every_response_allows_cross_origin (env : environment)
  (req : request) :
  incl corsHeaders (response_headers (handle show thinking env req)).
Proof. apply handle_proper. Qed.

(** X10.  The status tells the outcome: a response whose body is an error
    has the code of that error as its status, never 200, and any other
    response has status 200. *)
Theorem status_tells_errors (env : environment) (req : request) :
  match body (handle show thinking env req) with
  | ErrorBody _ _ code =>
      status (handle show thinking env req) = code /\ code <> 200
  | _ => status (handle show thinking env req) = 200
  end.
Proof. apply handle_proper. Qed.

(** X11.  A preflight request and the health check are answered with 200
    whatever the key, the request body and the upstream: the answer depends
    on the method and the path alone. *)
Theorem preflight_and_health_need_nothing (env env' : environment)
  (req req' : request) :
  request_method req = request_method req' ->
  request_pathname req = request_pathname req' ->
  request_method req = lit "OPTIONS" \/ request_pathname req = lit "/health" ->
  handle show thinking env req = handle show thinking env' req'
  /\ status (handle show thinking env req) = 200.
Proof.
  intros Hm Hp Hcase. unfold handle. rewrite <- Hm, <- Hp.
  destruct (str_eqb (request_method req) (lit "OPTIONS")) eqn:Eo;
    [now split|].
  destruct Hcase as [H|H].
  - rewrite H in Eo. discriminate.
  - rewrite H. cbn [str_eqb]. rewrite str_eqb_refl. now split.
Qed.

(** X12.  Without an [Authorization] header, or with an empty one, every
    request other than a preflight and the health check is answered 401
    with an authentication error, and the upstream is not asked: the answer
    does not depend on it. *)
Theorem no_key_no_upstream (env : environment) (req : request) :
  request_method req <> lit "OPTIONS" ->
  request_pathname req <> lit "/health" ->
  request_authorization req = None \/ request_authorization req = Some [] ->
  handle show thinking env req
  = {| status := 401; response_headers := json_headers;
       body := ErrorBody (Given NO_KEY_MESSAGE)
                         (lit "authentication_error") 401 |}.
Proof.
  intros Hm Hp Hkey. unfold handle.
  rewrite (str_eqb_neq Hm), (str_eqb_neq Hp).
  now destruct Hkey as [-> | ->].
Qed.

(** X13.  The model list never fails: whether the upstream answers, refuses,
    is unreachable or sends something that is not JSON, the answer has
    status 200 and holds the upstream list or the static one, the upstream
    list only when the upstream answered 2xx with JSON. *)
Theorem model_list_never_fails (env : environment) (key : jsstring) :
  status (models_endpoint env key) = 200
  /\ response_headers (models_endpoint env key) = json_headers
  /\ (body (models_endpoint env key) = JsonBody (fallback_models (now env))
      \/ exists reply data,
           fetch_models env key = Ok reply /\ models_ok reply = true
           /\ models_json reply = Ok data
           /\ body (models_endpoint env key) = JsonBody data).
Proof.
  unfold models_endpoint.
  destruct (fetch_models env key) as [reply|m]; [|now repeat split; left].
  destruct (models_ok reply) eqn:Eok; [|now repeat split; left].
  destruct (models_json reply) as [data|m] eqn:Ej; [|now repeat split; left].
  repeat split. right. now exists reply, data.
Qed.

(** X14.  A chat completion is answered 200 only when the upstream was
    reached and answered 2xx: the request body was read, it was not [null],
    and the upstream call resolved with a status from 200 to 299. *)
Theorem chat_success_needs_upstream_success (env : environment)
  (key : jsstring) (req : request) :
  status (chat_completions show thinking env key req) = 200 ->
  exists body nimRequest reply,
    request_json req = Ok body
    /\ build_nim_request thinking body = Some nimRequest
    /\ fetch_chat env key nimRequest = Ok reply
    /\ (200 <=? chat_status reply) && (chat_status reply <=? 299) = true.
Proof.
  unfold chat_completions.
  destruct (request_json req) as [body|m]; [|discriminate].
  destruct (build_nim_request thinking body) as [nimRequest|] eqn:Eb;
    [|discriminate].
  destruct (fetch_chat env key nimRequest) as [reply|m] eqn:Ef;
    [|discriminate].
  destruct ((200 <=? chat_status reply) && (chat_status reply <=? 299))
    eqn:Eok.
  - intros _. now exists body, nimRequest, reply.
  - cbn [negb]. destruct (chat_text reply) as [errorText|m]; [|discriminate].
    unfold upstream_failure, upstream_ok. cbn [upstream_status upstream_text].
    rewrite Eok. destruct (Response_accepts (chat_status reply));
      [|discriminate].
    cbn [status http_status]. intros H.
    rewrite H in Eok. discriminate.
Qed.

End Handler.

Lemma preflight_and_health_need_nothing_witness :
  handle (platform := sample_platform) true true upstream_down
         (bare_request (lit "OPTIONS") (lit "/v1/chat/completions") None)
  = handle (platform := sample_platform) true true
           (upstream_answering
              {| chat_status := 200; chat_text := Ok [];
                 chat_json := Ok JNull; chat_body := None |})
           (bare_request (lit "OPTIONS") (lit "/v1/chat/completions")
                         (Some (lit "Bearer nvapi-1")))
  /\ status (handle (platform := sample_platform) true true upstream_down
               (bare_request (lit "OPTIONS") (lit "/v1/chat/completions")
                             None)) = 200.
Proof.
  apply (@preflight_and_health_need_nothing sample_platform true true);
    [reflexivity | reflexivity | left; reflexivity].
Defined.

Lemma no_key_no_upstream_witness :
  handle (platform := sample_platform) true true upstream_down
         (bare_request (lit "POST") (lit "/v1/chat/completions") None)
  = {| status := 401; response_headers := json_headers;
       body := ErrorBody (Given NO_KEY_MESSAGE)
                         (lit "authentication_error") 401 |}.
Proof.
  apply (@no_key_no_upstream sample_platform true true);
    [discriminate | discriminate | left; reflexivity].
Defined.

Lemma chat_success_needs_upstream_success_witness :
  let reply := {| chat_status := 200; chat_text := Ok [];
                  chat_json := Ok (JObj [(k_choices, JArr [])]);
                  chat_body := None |} in
  status (handle (platform := sample_platform) true true
            (upstream_answering reply) (chat_request (JObj []))) = 200
  /\ exists body nimRequest reply',
      request_json (chat_request (JObj [])) = Ok body
      /\ build_nim_request true body = Some nimRequest
      /\ fetch_chat (upstream_answering reply) (lit "nvapi-1") nimRequest
         = Ok reply'
      /\ (200 <=? chat_status reply') && (chat_status reply' <=? 299) = true.
Proof.
  intros reply. split; [reflexivity|].
  apply (@chat_success_needs_upstream_success sample_platform true true
           (upstream_answering reply) (lit "nvapi-1")
           (chat_request (JObj []))).
  reflexivity.
Defined.

(** *** The non-streamed response and the upstream request *)

Lemma map_throws_all {A B : Type} (f : A -> throws B) (l : list A)
  (ys : list B) :
  map_throws f l = Some ys -> Forall2 (fun x y => f x = Some y) l ys.
Proof.
  revert ys. induction l as [|x l IH]; intros ys; cbn [map_throws].
  - intros E. injection E as <-. constructor.
  - unfold bind. destruct (f x) as [y|] eqn:Ex; [|discriminate].
    destruct (map_throws f l) as [ys'|]; [|discriminate].
    intros E. injection E as <-. constructor; auto.
Qed.

Lemma map_throws_one {A B : Type} (f : A -> throws B) (l : list A) (x : A) :
  In x l -> f x = None -> map_throws f l = None.
Proof.
  intros Hin Hx. induction l as [|a l IH]; [contradiction|].
  cbn [map_throws]. unfold bind. destruct Hin as [->|Hin].
  - now rewrite Hx.
  - destruct (f a); [|reflexivity]. now rewrite (IH Hin).
Qed.

Lemma member_value (k : jsstring) (v x : jsval) :
  member k v = Some x -> x = opt_member k v.
Proof.
  destruct v as [[| | | | |fs]|]; cbn; try discriminate;
    now intros E; injection E as <-.
Qed.

Section Completion.

Context {platform : Platform}.

Lemma reshape_choice_copies (show : bool) (choice : json)
  (out : openai_choice) :
  reshape_choice show choice = Some out ->
  choice_index out = opt_member (lit "index") (Some choice)
  /\ choice_finish_reason out = opt_member (lit "finish_reason") (Some choice)
  /\ choice_role out
     = opt_member (lit "role") (opt_member (lit "message") (Some choice)).
Proof.
  unfold reshape_choice, bind.
  destruct (member (lit "message") (Some choice)) as [message|] eqn:Em;
    [|discriminate].
  apply member_value in Em. subst message.
  destruct (match (if show
                   then as_truthy
                          (opt_member k_reasoning
                             (opt_member (lit "message") (Some choice)))
                   else None) with
            | Some r => _
            | None => _
            end) as [content|]; [|discriminate].
  destruct (member (lit "index") (Some choice)) as [index|] eqn:Ei;
    [|discriminate].
  destruct (member (lit "role") (opt_member (lit "message") (Some choice)))
    as [role|] eqn:Er; [|discriminate].
  destruct (member (lit "finish_reason") (Some choice)) as [finish|] eqn:Ef;
    [|discriminate].
  apply member_value in Ei, Er, Ef. subst.
  intros E. injection E as <-. now repeat split.
Qed.

(** X15.  A non-streamed response keeps the choices of the upstream, as many
    and in the same order, each with its index, role and finish reason
    copied; it names the model the client asked for and reports the
    upstream usage, or zeros when there is none. *)
Theorem completion_keeps_choices (show : bool) (stamp created_ms : float)
  (model : jsval) (data : json) (r : openai_response) :
  reshape_response show stamp created_ms model data = Some r ->
  exists items,
    opt_member k_choices (Some data) = Some (JArr items)
    /\ Forall2
         (fun choice out =>
            reshape_choice show choice = Some out
            /\ choice_index out = opt_member (lit "index") (Some choice)
            /\ choice_finish_reason out
               = opt_member (lit "finish_reason") (Some choice)
            /\ choice_role out
               = opt_member (lit "role")
                   (opt_member (lit "message") (Some choice)))
         items (response_choices r)
    /\ response_model r = model
    /\ response_usage r
       = js_or (opt_member (lit "usage") (Some data)) DEFAULT_USAGE.
Proof.
  unfold reshape_response, bind.
  destruct (member k_choices (Some data)) as [choices|] eqn:Ec;
    [|discriminate].
  apply member_value in Ec. subst choices.
  destruct (opt_member k_choices (Some data)) as [[| | | |items|]|];
    try discriminate.
  destruct (map_throws (reshape_choice show) items) as [reshaped|] eqn:Em;
    [|discriminate].
  intros E. injection E as <-. exists items. cbn.
  split; [reflexivity|]. split; [|now split].
  apply map_throws_all in Em.
  induction Em as [|choice out items outs Hout _ IH]; constructor; auto.
  split; [exact Hout | exact (@reshape_choice_copies show choice out Hout)].
Qed.

(** X16.  One malformed choice fails the whole response: when the upstream
    choices are not an array, or one of them is [null] or has no message,
    the reshaping throws (and line 297 answers 500). *)
Theorem malformed_choice_fails_completion (show : bool)
  (stamp created_ms : float) (model : jsval) (data : json) :
  (forall items, opt_member k_choices (Some data) <> Some (JArr items)) \/
  (exists items choice,
      opt_member k_choices (Some data) = Some (JArr items)
      /\ In choice items
      /\ (opt_member (lit "message") (Some choice) = None
          \/ opt_member (lit "message") (Some choice) = Some JNull)) ->
  reshape_response show stamp created_ms model data = None.
Proof.
  unfold reshape_response, bind.
  destruct (member k_choices (Some data)) as [choices|] eqn:Ec;
    [|reflexivity].
  apply member_value in Ec. subst choices.
  intros [Hnot|(items & choice & Hitems & Hin & Hmsg)].
  - destruct (opt_member k_choices (Some data)) as [[| | | |items|]|];
      try reflexivity. now elim (Hnot items).
  - rewrite Hitems. rewrite (map_throws_one _ _ _ Hin); [reflexivity|].
    unfold reshape_choice, bind.
    destruct (member (lit "message") (Some choice)) as [message|] eqn:Em;
      [|reflexivity].
    apply member_value in Em. subst message.
    destruct (member (lit "index") (Some choice)) as [index|];
      destruct Hmsg as [-> | ->]; cbn; destruct show; reflexivity.
Qed.

(** X17.  Without [SHOW_REASONING] a non-streamed choice that has a message
    is always reshaped, and its content is the content of the message, or
    the empty string when that is missing or falsy: the reasoning is never
    looked at. *)
Theorem hidden_reasoning_in_completion (choice : json)
  (message : list (jsstring * json)) :
  opt_member (lit "message") (Some choice) = Some (JObj message) ->
  exists out,
    reshape_choice false choice = Some out
    /\ choice_content out = js_or (lookup k_content message) (JStr []).
Proof.
  destruct choice as [| | | | |fs]; try discriminate.
  cbn [opt_member]. intros Hm. unfold reshape_choice, bind, member.
  rewrite Hm. cbn [opt_member]. eexists. split; reflexivity.
Qed.

End Completion.

(** X18.  The upstream request forwards what the client sent without
    checking it: the model and the messages as they are, missing or not,
    and a truthy temperature or token limit whatever its type; it asks for a
    stream exactly when the client's [stream] is truthy, and carries the
    thinking switch exactly when [ENABLE_THINKING_MODE] is set.  Only a
    [null] body makes it throw. *)
Theorem request_forwards_client_settings (thinking : bool) (body : json) :
  (build_nim_request thinking body = None <-> body = JNull)
  /\ forall req,
      build_nim_request thinking body = Some req ->
      nim_model req = opt_member (lit "model") (Some body)
      /\ nim_messages req = opt_member (lit "messages") (Some body)
      /\ (forall v, as_truthy (opt_member (lit "temperature") (Some body))
                    = Some v -> nim_temperature req = v)
      /\ (forall v, as_truthy (opt_member (lit "max_tokens") (Some body))
                    = Some v -> nim_max_tokens req = v)
      /\ json_truthy (nim_stream req)
         = truthy (opt_member (lit "stream") (Some body))
      /\ (nim_extra_body req = None <-> thinking = false).
Proof.
  split.
  - destruct body; cbn; split; intros H; try discriminate; reflexivity.
  - intros req Hreq.
    assert (Hshape :
      req = {| nim_model := opt_member (lit "model") (Some body);
               nim_messages := opt_member (lit "messages") (Some body);
               nim_temperature :=
                 js_or (opt_member (lit "temperature") (Some body))
                       DEFAULT_TEMPERATURE;
               nim_max_tokens :=
                 js_or (opt_member (lit "max_tokens") (Some body))
                       DEFAULT_MAX_TOKENS;
               nim_stream :=
                 js_or (opt_member (lit "stream") (Some body)) (JBool false);
               nim_extra_body :=
                 if thinking
                 then Some (JObj [(lit "chat_template_kwargs",
                                   JObj [(lit "thinking", JBool true)])])
                 else None |})
      by (destruct body; try discriminate; now inversion Hreq).
    subst req. cbn [nim_model nim_messages nim_temperature nim_max_tokens
                    nim_stream nim_extra_body].
    split; [reflexivity|]. split; [reflexivity|].
    split; [intros v Hv; unfold js_or; now rewrite Hv|].
    split; [intros v Hv; unfold js_or; now rewrite Hv|].
    split.
    + unfold js_or.
      destruct (as_truthy (opt_member (lit "stream") (Some body)))
        as [v|] eqn:Ev.
      * apply as_truthy_some in Ev as [-> Hv]. reflexivity.
      * apply as_truthy_none in Ev. now rewrite Ev.
    + destruct thinking; split; intros H; try discriminate; reflexivity.
Qed.

Lemma completion_keeps_choices_witness :
  let data :=
    JObj [(k_choices,
           JArr [one_shot (lit "r") (lit "a"); one_shot [] (lit "b")])] in
  exists r,
    reshape_response (platform := sample_platform) true 0%float 0%float
      (Some (JStr (lit "m"))) data = Some r
    /\ List.length (response_choices r) = 2%nat
    /\ response_usage r = DEFAULT_USAGE.
Proof.
  intros data. eexists. split; [reflexivity|].
  destruct (@completion_keeps_choices sample_platform true 0%float 0%float
              (Some (JStr (lit "m"))) data _ eq_refl)
    as (items & Hitems & Hall & _ & Husage).
  split; [|exact Husage].
  apply Forall2_length in Hall. rewrite <- Hall.
  injection Hitems as <-. reflexivity.
Defined.

Lemma malformed_choice_fails_completion_witness :
  reshape_response (platform := sample_platform) true 0%float 0%float None
    (JObj [(k_choices, JArr [one_shot (lit "r") (lit "a"); JNull])])
  = None.
Proof.
  apply (@malformed_choice_fails_completion sample_platform).
  right. exists [one_shot (lit "r") (lit "a"); JNull], JNull.
  split; [reflexivity|]. split; [right; left; reflexivity|].
  left. reflexivity.
Defined.

Lemma hidden_reasoning_in_completion_witness :
  exists out,
    reshape_choice (platform := sample_platform) false
                   (one_shot (lit "r") (lit "a")) = Some out
    /\ choice_content out = JStr (lit "a").
Proof.
  destruct (@hidden_reasoning_in_completion sample_platform
              (one_shot (lit "r") (lit "a"))
              [(lit "role", JStr (lit "assistant"));
               (k_content, JStr (lit "a")); (k_reasoning, JStr (lit "r"))]
              eq_refl) as (out & Hout & Hcontent).
  exists out. split; [exact Hout | exact Hcontent].
Defined.

Lemma request_forwards_client_settings_witness :
  let body := JObj [(lit "temperature", JStr (lit "hot"));
                    (lit "stream", JNum 1%float)] in
  exists req,
    build_nim_request true body = Some req
    /\ nim_temperature req = JStr (lit "hot")
    /\ json_truthy (nim_stream req) = true.
Proof.
  intros body. eexists. split; [reflexivity|].
  destruct (@request_forwards_client_settings true body) as [_ H].
  destruct (H _ eq_refl) as (_ & _ & Ht & _ & Hs & _).
  split; [now apply Ht | exact Hs].
Defined.
